(** * Tanimoto fingerprint kernel (gprotorch/kernels/fingerprint_kernels/base_fingerprint_kernel.py)

    A shallow embedding of [BitDistance._sim] and [BitKernel.covar_dist],
    together with the part of the tensor library the two methods call.

    Scalars are exact: a finite value is a rational number, and the three
    special values of the floating-point format (the two infinities and
    not-a-number) are kept with their arithmetic.  Sums, products and
    quotients of finite values are exact: the rounding and the overflow of a
    floating-point element type, the wrap-around of an integer one and the
    sign of zero are not modelled, and the statements about values are
    statements in exact arithmetic.

    A tensor is a shape, an element for every multi-index, and the
    [requires_grad] flag.  Multi-indices and shapes list the outermost axis
    first, as in the source ([n x d], [b x n x d]). *)

From Stdlib Require Import String Znat.
From Stdlib Require Import List Arith Bool QArith Qminmax Lia Lqa.
Import ListNotations.
Open Scope nat_scope.

(** ** Scalars *)

Module Scalar.

Inductive scalar : Type :=
| Fin (q : Q)
| PInf
| NInf
| NaN.

Definition Qsgn (q : Q) : comparison := Qcompare q 0.

Definition inf_of (c : comparison) : scalar :=
  match c with
  | Gt => PInf
  | Lt => NInf
  | Eq => NaN
  end.

Definition flip (c : comparison) : comparison := CompOpp c.

Definition fadd (a b : scalar) : scalar :=
  match a, b with
  | NaN, _ | _, NaN => NaN
  | Fin x, Fin y => Fin (x + y)
  | PInf, NInf | NInf, PInf => NaN
  | PInf, _ | _, PInf => PInf
  | NInf, _ | _, NInf => NInf
  end.

Definition fneg (a : scalar) : scalar :=
  match a with
  | Fin x => Fin (- x)
  | PInf => NInf
  | NInf => PInf
  | NaN => NaN
  end.

Definition fsub (a b : scalar) : scalar :=
  match a, b with
  | Fin x, Fin y => Fin (x - y)
  | _, _ => fadd a (fneg b)
  end.

Definition fmul (a b : scalar) : scalar :=
  match a, b with
  | NaN, _ | _, NaN => NaN
  | Fin x, Fin y => Fin (x * y)
  | Fin x, PInf | PInf, Fin x => inf_of (Qsgn x)
  | Fin x, NInf | NInf, Fin x => inf_of (flip (Qsgn x))
  | PInf, PInf | NInf, NInf => PInf
  | PInf, NInf | NInf, PInf => NInf
  end.

(** Division: a finite value over zero is an infinity of the sign of the
    numerator, and zero over zero is not-a-number. *)
Definition fdiv (a b : scalar) : scalar :=
  match a, b with
  | NaN, _ | _, NaN => NaN
  | Fin x, Fin y =>
      if Qeq_bool y 0 then inf_of (Qsgn x) else Fin (x / y)
  | Fin _, PInf | Fin _, NInf => Fin 0
  | PInf, Fin y => if Qle_bool 0 y then PInf else NInf
  | NInf, Fin y => if Qle_bool 0 y then NInf else PInf
  | PInf, PInf | PInf, NInf | NInf, PInf | NInf, NInf => NaN
  end.

(** [clamp_min]: the larger of the element and the bound; not-a-number is
    passed on. *)
Definition fclamp_min (lo : Q) (a : scalar) : scalar :=
  match a with
  | Fin x => Fin (if Qle_bool lo x then x else lo)
  | PInf => PInf
  | NInf => Fin lo
  | NaN => NaN
  end.

(** The comparison [==] of the number format: not-a-number differs from
    everything, itself included. *)
Definition feqb (a b : scalar) : bool :=
  match a, b with
  | Fin x, Fin y => Qeq_bool x y
  | PInf, PInf | NInf, NInf => true
  | _, _ => false
  end.

(** The same value: equal as numbers, or the same special value. *)
Definition same (a b : scalar) : Prop :=
  match a, b with
  | Fin x, Fin y => x == y
  | PInf, PInf | NInf, NInf | NaN, NaN => True
  | _, _ => False
  end.

Definition is_fin (a : scalar) : Prop :=
  match a with Fin _ => True | _ => False end.

Definition fsum (l : list scalar) : scalar := fold_right fadd (Fin 0) l.

End Scalar.
Import Scalar.

(** ** Exceptions and results *)

Inductive exn : Type :=
| RuntimeError (msg : string)
| IndexError (msg : string).

Inductive result (A : Type) : Type :=
| Ok (a : A)
| Raise (e : exn).
Arguments Ok {A} a.
Arguments Raise {A} e.

Definition bind {A B : Type} (r : result A) (k : A -> result B) : result B :=
  match r with
  | Ok a => k a
  | Raise e => Raise e
  end.

Notation "x <- r ;; k" := (bind r (fun x => k))
  (at level 61, r at next level, right associativity).

(** ** Tensors *)

Module Torch.

Record Tensor : Type := mkTensor {
  shape : list nat;
  item : list nat -> scalar;
  requires_grad : bool
}.

Definition dim (t : Tensor) : nat := length (shape t).

(** The last [n] entries of a list. *)
Definition lastn {A : Type} (n : nat) (l : list A) : list A :=
  skipn (length l - n) l.

(** All multi-indices of a shape, in row-major order. *)
Fixpoint indices (s : list nat) : list (list nat) :=
  match s with
  | [] => [[]]
  | d :: s' => flat_map (fun i => map (cons i) (indices s')) (seq 0 d)
  end.

(** *** Broadcasting *)

(** Shapes are aligned on their last axis; two sizes are compatible when
    they are equal or one of them is 1. *)
Fixpoint broadcast_rev (s t : list nat) : option (list nat) :=
  match s, t with
  | [], _ => Some t
  | _, [] => Some s
  | a :: s', b :: t' =>
      match broadcast_rev s' t' with
      | None => None
      | Some r =>
          if a =? b then Some (a :: r)
          else if a =? 1 then Some (b :: r)
          else if b =? 1 then Some (a :: r)
          else None
      end
  end.

Definition broadcast_shapes (s t : list nat) : option (list nat) :=
  option_map (@rev nat) (broadcast_rev (rev s) (rev t)).

(** The index of the operand of shape [s] that is read for the index [idx]
    of the broadcast result: the trailing axes, with 0 on an axis of size 1. *)
Definition bidx (s idx : list nat) : list nat :=
  map (fun di => if fst di =? 1 then 0 else snd di)
      (combine s (lastn (length s) idx)).

Definition shape_mismatch : exn :=
  RuntimeError "The size of tensor a must match the size of tensor b at non-singleton dimension"%string.

Definition dim_out_of_range : exn :=
  IndexError "Dimension out of range"%string.

Definition pointwise (f : scalar -> scalar -> scalar) (a b : Tensor)
  : result Tensor :=
  match broadcast_shapes (shape a) (shape b) with
  | Some s =>
      Ok {| shape := s;
            item := fun idx =>
              f (item a (bidx (shape a) idx)) (item b (bidx (shape b) idx));
            requires_grad := requires_grad a || requires_grad b |}
  | None => Raise shape_mismatch
  end.

Definition add := pointwise fadd.
Definition sub := pointwise fsub.
Definition div := pointwise fdiv.

(** *** Element-wise operations *)

Definition tmap (f : scalar -> scalar) (t : Tensor) : Tensor :=
  {| shape := shape t;
     item := fun idx => f (item t idx);
     requires_grad := requires_grad t |}.

(** [t.pow(2)] *)
Definition pow2 (t : Tensor) : Tensor := tmap (fun x => fmul x x) t.

(** [t.clamp_min_(lo)]; the tensor it is applied to is not shared. *)
Definition clamp_min_ (lo : Q) (t : Tensor) : Tensor := tmap (fclamp_min lo) t.

(** *** Reductions and views on the last axes *)

(** [t.sum(dim=-1, keepdim=keepdim)]; a tensor without axes is its own sum. *)
Definition sum_last (keepdim : bool) (t : Tensor) : Tensor :=
  match rev (shape t) with
  | [] => t
  | d :: rpre =>
      {| shape := rev rpre ++ (if keepdim then [1] else []);
         item := fun idx =>
           let pre := if keepdim then removelast idx else idx in
           fsum (map (fun k => item t (pre ++ [k])) (seq 0 d));
         requires_grad := requires_grad t |}
  end.

Definition swap_last2 (idx : list nat) : list nat :=
  match rev idx with
  | j :: i :: r => rev r ++ [j; i]
  | _ => idx
  end.

(** [t.transpose(-2, -1)] (the same as [t.transpose(-1, -2)]) *)
Definition transpose_last2 (t : Tensor) : result Tensor :=
  match rev (shape t) with
  | b :: a :: rpre =>
      Ok {| shape := rev rpre ++ [b; a];
            item := fun idx => item t (swap_last2 idx);
            requires_grad := requires_grad t |}
  | _ => Raise dim_out_of_range
  end.

(** [t.unsqueeze(-1)] *)
Definition unsqueeze_last (t : Tensor) : Tensor :=
  {| shape := shape t ++ [1];
     item := fun idx => item t (removelast idx);
     requires_grad := requires_grad t |}.

(** [t.squeeze(-1)]: the last axis is dropped when its size is 1, and the
    tensor is returned as it is otherwise. *)
Definition squeeze_last (t : Tensor) : Tensor :=
  match rev (shape t) with
  | d :: rpre =>
      if d =? 1 then
        {| shape := rev rpre;
           item := fun idx => item t (idx ++ [0]);
           requires_grad := requires_grad t |}
      else t
  | [] => t
  end.

(** *** Matrix product *)

Definition matmul_mismatch : exn :=
  RuntimeError "mat1 and mat2 shapes cannot be multiplied"%string.

Definition matmul_scalar : exn :=
  RuntimeError "both arguments to matmul need to be at least 1D"%string.

(** [a.matmul(b)]: a product of matrices over broadcast batch axes; an
    operand with one axis is a row (on the left) or a column (on the right)
    and its added axis is removed from the result. *)
Definition matmul (a b : Tensor) : result Tensor :=
  let rg := requires_grad a || requires_grad b in
  match rev (shape a), rev (shape b) with
  | [], _ | _, [] => Raise matmul_scalar
  | [k1], [k2] =>
      if k1 =? k2 then
        Ok {| shape := [];
              item := fun _ =>
                fsum (map (fun k => fmul (item a [k]) (item b [k])) (seq 0 k1));
              requires_grad := rg |}
      else Raise matmul_mismatch
  | [k1], m :: k2 :: rp2 =>
      if k1 =? k2 then
        Ok {| shape := rev rp2 ++ [m];
              item := fun idx =>
                let bi := removelast idx in
                let j := last idx 0 in
                fsum (map (fun k => fmul (item a [k]) (item b (bi ++ [k; j])))
                          (seq 0 k1));
              requires_grad := rg |}
      else Raise matmul_mismatch
  | k1 :: n :: rp1, [k2] =>
      if k1 =? k2 then
        Ok {| shape := rev rp1 ++ [n];
              item := fun idx =>
                fsum (map (fun k => fmul (item a (idx ++ [k])) (item b [k]))
                          (seq 0 k1));
              requires_grad := rg |}
      else Raise matmul_mismatch
  | k1 :: n :: rp1, m :: k2 :: rp2 =>
      if k1 =? k2 then
        match broadcast_rev rp1 rp2 with
        | Some rb =>
            Ok {| shape := rev rb ++ [n; m];
                  item := fun idx =>
                    let bi := removelast (removelast idx) in
                    let i := last (removelast idx) 0 in
                    let j := last idx 0 in
                    fsum (map (fun k =>
                                 fmul (item a (bidx (rev rp1) bi ++ [i; k]))
                                      (item b (bidx (rev rp2) bi ++ [k; j])))
                              (seq 0 k1));
                  requires_grad := rg |}
        | None => Raise shape_mismatch
        end
      else Raise matmul_mismatch
  end.

(** [t.diagonal(dim1=-2, dim2=-1).fill_(v)]: the entries whose last two
    indices agree are overwritten. *)
Definition fill_diagonal_ (v : scalar) (t : Tensor) : result Tensor :=
  match rev (shape t) with
  | _ :: _ :: _ =>
      Ok {| shape := shape t;
            item := fun idx =>
              match rev idx with
              | j :: i :: _ => if i =? j then v else item t idx
              | _ => item t idx
              end;
            requires_grad := requires_grad t |}
  | _ => Raise dim_out_of_range
  end.

Fixpoint shape_eqb (s t : list nat) : bool :=
  match s, t with
  | [], [] => true
  | a :: s', b :: t' => (a =? b) && shape_eqb s' t'
  | _, _ => false
  end.

(** [torch.equal(a, b)]: the same shape and equal elements. *)
Definition equal (a b : Tensor) : bool :=
  shape_eqb (shape a) (shape b)
  && forallb (fun idx => feqb (item a idx) (item b idx)) (indices (shape a)).

End Torch.
Import Torch.

(** *** Literals and read-back *)

(** [torch.tensor(rows)] for a list of rows, without gradient tracking. *)
Definition matrix (rows : list (list Q)) : Tensor :=
  {| shape := [length rows; length (hd [] rows)];
     item := fun idx =>
       match idx with
       | [i; k] => Fin (nth k (nth i rows []) 0%Q)
       | _ => Fin 0
       end;
     requires_grad := false |}.

(** [torch.tensor(blocks)] for a list of matrices. *)
Definition batch (blocks : list (list (list Q))) : Tensor :=
  {| shape := [length blocks; length (hd [] blocks);
               length (hd [] (hd [] blocks))];
     item := fun idx =>
       match idx with
       | [b; i; k] => Fin (nth k (nth i (nth b blocks []) []) 0%Q)
       | _ => Fin 0
       end;
     requires_grad := false |}.

(** [torch.tensor(xs)] for a list of numbers. *)
Definition vector (xs : list Q) : Tensor :=
  {| shape := [length xs];
     item := fun idx =>
       match idx with
       | [k] => Fin (nth k xs 0%Q)
       | _ => Fin 0
       end;
     requires_grad := false |}.

(** [t.requires_grad_()] *)
Definition requires_grad_ (t : Tensor) : Tensor :=
  {| shape := shape t; item := item t; requires_grad := true |}.

Definition canon (a : scalar) : scalar :=
  match a with
  | Fin q => Fin (Qred q)
  | _ => a
  end.

(** The elements in row-major order, finite ones in lowest terms. *)
Definition values (t : Tensor) : list scalar :=
  map (fun idx => canon (item t idx)) (indices (shape t)).

(** ** The program *)

(** What [==] looks at in a callable object: a function object is equal to
    itself only; a bound method is equal to the bound methods of the same
    object ([__self__]) and the same function ([__func__]). *)
Inductive callable_kind : Type :=
| PlainFunction
| BoundMethod (self_id method_id : nat).

(** A Python callable object: its identity, its kind and what it computes.
    The post-processing functions are pure maps on tensors. *)
Record pyfunc : Type := mkFunc {
  func_id : nat;
  kind : callable_kind;
  call : Tensor -> Tensor
}.

(** [gpytorch.kernels.kernel.default_postprocess_script] returns its
    argument. *)
Definition default_postprocess_script : pyfunc :=
  {| func_id := 0; kind := PlainFunction; call := fun x => x |}.

(** [f == g] on callable objects. *)
Definition func_eq (f g : pyfunc) : bool :=
  match kind f, kind g with
  | PlainFunction, PlainFunction => func_id f =? func_id g
  | BoundMethod s1 m1, BoundMethod s2 m2 => (s1 =? s2) && (m1 =? m2)
  | _, _ => false
  end.

(** [f != g] *)
Definition func_ne (f g : pyfunc) : bool := negb (func_eq f g).

Record BitDistance : Type := mkBitDistance {
  obj_id : nat;
  _postprocess : pyfunc
}.

Definition supported_metrics : list string := ["tanimoto"%string].

Definition unsupported_metric : exn :=
  RuntimeError
    "Similarity metric not supported. Available options are 'tanimoto'"%string.

(** [metric in ['tanimoto']] *)
Definition metric_in (metric : string) (l : list string) : bool :=
  existsb (String.eqb metric) l.

(** [BitDistance._sim].  [None] is the value of a Python function that ends
    without a [return]. *)
Definition _sim (self : BitDistance) (x1 x2 : Tensor)
    (postprocess x1_eq_x2 : bool) (metric : string)
  : result (option Tensor) :=
  if negb (metric_in metric supported_metrics) then Raise unsupported_metric
  else if String.eqb metric "tanimoto" then
    let x1_norm := sum_last true (pow2 x1) in
    let x2_norm :=
      if x1_eq_x2 && negb (requires_grad x1) && negb (requires_grad x2)
      then x1_norm
      else sum_last false (pow2 x2) in
    x2t <- transpose_last2 x2 ;;
    cross_product <- matmul x1 x2t ;;
    norms <- add x1_norm (squeeze_last x2_norm) ;;
    denominator <- sub norms cross_product ;;
    res <- div cross_product denominator ;;
    res <- (if x1_eq_x2 && negb (requires_grad x1) && negb (requires_grad x2)
            then fill_diagonal_ (Fin 1) res
            else Ok res) ;;
    let res := clamp_min_ 0 res in
    Ok (Some (if postprocess then call (_postprocess self) res else res))
  else Ok None.

(** [BitKernel]: the metric and the cached distance module, which the base
    class [gpytorch.kernels.Kernel] initialises to [None]. *)
Record BitKernel : Type := mkBitKernel {
  metric : string;
  distance_module : option BitDistance
}.

(** [BitKernel.__init__(metric='')] *)
Definition BitKernel_init (metric : string) : BitKernel :=
  {| metric := metric; distance_module := None |}.

Definition default_metric : string := ""%string.

(** The state a call of [covar_dist] works on: the kernel object and the
    number of [BitDistance] objects constructed so far, which is also the
    identity of the next one. *)
Record state : Type := mkState {
  constructed : nat;
  kernel : BitKernel
}.

(** [self.distance_module = BitDistance(dist_postprocess_func)] *)
Definition rebuild (st : state) (f : pyfunc) : state * BitDistance :=
  let d := {| obj_id := constructed st; _postprocess := f |} in
  ({| constructed := S (constructed st);
      kernel := {| metric := metric (kernel st);
                   distance_module := Some d |} |}, d).

(** Lines 139-140: the cached module is replaced when there is none or when
    its post-processing function is not the requested one.  The result is
    the state and the module [self.distance_module] then refers to. *)
Definition refresh (st : state) (f : pyfunc) : state * BitDistance :=
  match distance_module (kernel st) with
  | None => rebuild st f
  | Some d => if func_ne (_postprocess d) f then rebuild st f else (st, d)
  end.

(** Lines 127-129 *)
Definition relayout (last_dim_is_batch : bool) (x : Tensor) : result Tensor :=
  if last_dim_is_batch then
    xt <- transpose_last2 x ;; Ok (unsqueeze_last xt)
  else Ok x.

(** [BitKernel.covar_dist]: the state after the call and what the call
    returns or raises. *)
Definition covar_dist (st : state) (x1 x2 : Tensor) (last_dim_is_batch : bool)
    (dist_postprocess_func : pyfunc) (postprocess : bool)
  : state * result (option Tensor) :=
  match relayout last_dim_is_batch x1 with
  | Raise e => (st, Raise e)
  | Ok x1 =>
      match relayout last_dim_is_batch x2 with
      | Raise e => (st, Raise e)
      | Ok x2 =>
          let x1_eq_x2 := equal x1 x2 in
          let (st', d) := refresh st dist_postprocess_func in
          (st', _sim d x1 x2 postprocess x1_eq_x2 (metric (kernel st')))
      end
  end.

(** [BitKernel.forward] *)
Definition forward := covar_dist.

(** A kernel that has just been constructed. *)
Definition fresh (metric : string) : state :=
  {| constructed := 0; kernel := BitKernel_init metric |}.

(** What a call on a fresh kernel with the metric ['tanimoto'] and the
    default options returns. *)
Definition similarity (x1 x2 : Tensor) : result (option Tensor) :=
  snd (covar_dist (fresh "tanimoto") x1 x2 false default_postprocess_script
         true).

(** ** Notions used in the statements *)

(** The dot product of row [i] of [a] and row [j] of [b], over [d] columns,
    as the sums of the program compute it. *)
Definition row_dot (d : nat) (a : Tensor) (i : nat) (b : Tensor) (j : nat)
  : scalar :=
  fsum (map (fun k => fmul (item a [i; k]) (item b [j; k])) (seq 0 d)).

(** The quotient of line 61 for row [i] of [x1] and row [j] of [x2]; on the
    path that reuses the norms of [x1], the second norm is that of row [j]
    of [x1]. *)
Definition quotient (d : nat) (fast : bool) (x1 x2 : Tensor) (i j : nat)
  : scalar :=
  let c := row_dot d x1 i x2 j in
  let n2 := if fast then row_dot d x1 j x1 j else row_dot d x2 j x2 j in
  fdiv c (fsub (fadd (row_dot d x1 i x1 i) n2) c).

(** The condition of lines 50 and 64. *)
Definition fast_path (x1_eq_x2 : bool) (x1 x2 : Tensor) : bool :=
  x1_eq_x2 && negb (requires_grad x1) && negb (requires_grad x2).

Definition post (self : BitDistance) (postprocess : bool) (t : Tensor)
  : Tensor :=
  if postprocess then call (_postprocess self) t else t.

(** The sum of the products [f k * g k] over the indices in [l]. *)
Definition sum_prod (f g : nat -> Q) (l : list nat) : Q :=
  fold_right Qplus 0%Q (map (fun k => (f k * g k)%Q) l).

(** The number at row [i], column [k] (0 where the element is not finite). *)
Definition entry (x : Tensor) (i k : nat) : Q :=
  match item x [i; k] with
  | Fin q => q
  | _ => 0%Q
  end.

(** An [n x d] matrix of finite numbers. *)
Definition real_matrix (n d : nat) (x : Tensor) : Prop :=
  shape x = [n; d]
  /\ forall i k, i < n -> k < d -> is_fin (item x [i; k]).

(** Row [i] holds zeros only. *)
Definition zero_row (d : nat) (x : Tensor) (i : nat) : Prop :=
  forall k, k < d -> (entry x i k == 0)%Q.

(** The dot product of two rows as a rational number. *)
Definition dotQ (d : nat) (a : Tensor) (i : nat) (b : Tensor) (j : nat) : Q :=
  sum_prod (entry a i) (entry b j) (seq 0 d).

(** The Tanimoto coefficient of two rows:
    [<x, y> / (||x||^2 + ||y||^2 - <x, y>)]. *)
Definition tanimotoQ (d : nat) (x1 : Tensor) (i : nat) (x2 : Tensor) (j : nat)
  : Q :=
  (dotQ d x1 i x2 j
   / (dotQ d x1 i x1 i + dotQ d x2 j x2 j - dotQ d x1 i x2 j))%Q.

Definition message (e : exn) : string :=
  match e with
  | RuntimeError msg => msg
  | IndexError msg => msg
  end.

(** [sub in s] on strings. *)
Fixpoint contains (sub s : string) : bool :=
  String.prefix sub s
  || match s with
     | EmptyString => false
     | String _ s' => contains sub s'
     end.

(** The exceptions that the tensor operations raise. *)
Definition torch_error (e : exn) : Prop :=
  In e [shape_mismatch; dim_out_of_range; matmul_mismatch; matmul_scalar].

(** The calls that get as far as the cache: with [last_dim_is_batch], the
    two inputs have at least two axes. *)
Definition reaches_cache (last_dim_is_batch : bool) (x1 x2 : Tensor) : Prop :=
  last_dim_is_batch = true -> 2 <= dim x1 /\ 2 <= dim x2.

(** The cache holds no module, or one built with a function that [!=]
    tells from the requested one. *)
Definition stale (st : state) (f : pyfunc) : Prop :=
  distance_module (kernel st) = None
  \/ exists d, distance_module (kernel st) = Some d
               /\ func_ne (_postprocess d) f = true.

Definition other_postprocess : pyfunc :=
  {| func_id := 1; kind := PlainFunction; call := clamp_min_ (1 # 2) |}.

(** Two objects that evaluating [obj.method] twice gives: distinct bound
    methods of the same object and function. *)
Definition first_bound_method : pyfunc :=
  {| func_id := 2; kind := BoundMethod 7 8; call := clamp_min_ (1 # 2) |}.
Definition second_bound_method : pyfunc :=
  {| func_id := 3; kind := BoundMethod 7 8; call := clamp_min_ (1 # 2) |}.

(** The two batches of the counterexamples: two blocks of two points with
    one feature. *)
Definition ones : Tensor := batch [[[1]; [1]]; [[1]; [1]]]%Q.
Definition halves : Tensor := batch [[[1]; [1]]; [[1 # 2]; [1 # 2]]]%Q.

(** *** Bit vectors *)


(** Row [i] holds no negative number. *)
Definition nonneg_row (d : nat) (x : Tensor) (i : nat) : Prop :=
  forall k, k < d -> (0 <= entry x i k)%Q.






(** * Properties *)

(** ** Matrices: inputs [n x d] and [m x d] *)

Lemma small_index (n i : nat) : i < n -> (if n =? 1 then 0 else i) = i.
Proof.
  intros Hi. destruct (Nat.eqb_spec n 1); [lia | reflexivity].
Qed.

(** *** The tensor operations on matrices *)

Ltac open_tensor t :=
  let s := fresh "s" in
  let f := fresh "f" in
  let g := fresh "g" in
  destruct t as [s f g]; cbn [shape item requires_grad] in *; subst.

Lemma transpose_matrix (x : Tensor) (m d : nat) :
  shape x = [m; d] ->
  exists t, transpose_last2 x = Ok t /\ shape t = [d; m]
            /\ forall k j, item t [k; j] = item x [j; k].
Proof.
  intros Hs. open_tensor x. eexists. split; [reflexivity |].
  split; reflexivity.
Qed.

Lemma matmul_matrix (a b : Tensor) (n d m : nat) :
  shape a = [n; d] -> shape b = [d; m] ->
  exists c, matmul a b = Ok c /\ shape c = [n; m]
            /\ forall i j, item c [i; j]
                 = fsum (map (fun k => fmul (item a [i; k]) (item b [k; j]))
                             (seq 0 d)).
Proof.
  intros Ha Hb. open_tensor a. open_tensor b.
  unfold matmul. cbn. rewrite Nat.eqb_refl.
  eexists. split; [reflexivity |]. split; reflexivity.
Qed.

Lemma norm_keepdim (x : Tensor) (n d : nat) :
  shape x = [n; d] ->
  shape (sum_last true (pow2 x)) = [n; 1]
  /\ forall i z, item (sum_last true (pow2 x)) [i; z] = row_dot d x i x i.
Proof.
  intros Hs. open_tensor x. split; reflexivity.
Qed.

Lemma norm_flat (x : Tensor) (m d : nat) :
  shape x = [m; d] ->
  shape (sum_last false (pow2 x)) = [m]
  /\ forall j, item (sum_last false (pow2 x)) [j] = row_dot d x j x j.
Proof.
  intros Hs. open_tensor x. split; reflexivity.
Qed.

Lemma add_column_row (a b : Tensor) (n m : nat) :
  shape a = [n; 1] -> shape b = [m] ->
  exists s, add a (squeeze_last b) = Ok s /\ shape s = [n; m]
            /\ forall i j, i < n -> j < m ->
                 item s [i; j] = fadd (item a [i; 0]) (item b [j]).
Proof.
  intros Ha Hb. open_tensor a. open_tensor b.
  unfold add, pointwise, squeeze_last, broadcast_shapes. cbn.
  destruct (Nat.eqb_spec m 1) as [-> | Hm]; cbn.
  - eexists. split; [reflexivity |]. split; [reflexivity |].
    intros i j Hi Hj. cbn. rewrite (small_index n i Hi).
    replace j with 0 by lia. reflexivity.
  - destruct m as [| [| m']]; try lia; cbn.
    + eexists. split; [reflexivity |]. split; [reflexivity |]. lia.
    + eexists. split; [reflexivity |]. split; [reflexivity |].
      intros i j Hi Hj. cbn. rewrite (small_index n i Hi). reflexivity.
Qed.

Lemma add_column_itself (a : Tensor) (n : nat) :
  shape a = [n; 1] ->
  exists s, add a (squeeze_last a) = Ok s /\ shape s = [n; n]
            /\ forall i j, i < n -> j < n ->
                 item s [i; j] = fadd (item a [i; 0]) (item a [j; 0]).
Proof.
  intros Ha. open_tensor a.
  unfold add, pointwise, squeeze_last, broadcast_shapes. cbn.
  destruct n as [| [| n']]; cbn.
  - eexists. split; [reflexivity |]. split; [reflexivity |]. lia.
  - eexists. split; [reflexivity |]. split; [reflexivity |].
    intros i j Hi Hj. replace i with 0 by lia. replace j with 0 by lia.
    reflexivity.
  - eexists. split; [reflexivity |]. split; [reflexivity |].
    intros i j Hi Hj. reflexivity.
Qed.

Lemma pointwise_matrix (f : scalar -> scalar -> scalar) (a b : Tensor)
    (n m : nat) :
  shape a = [n; m] -> shape b = [n; m] ->
  exists s, pointwise f a b = Ok s /\ shape s = [n; m]
            /\ forall i j, i < n -> j < m ->
                 item s [i; j] = f (item a [i; j]) (item b [i; j]).
Proof.
  intros Ha Hb. open_tensor a. open_tensor b.
  unfold pointwise, broadcast_shapes. cbn. rewrite !Nat.eqb_refl. cbn.
  eexists. split; [reflexivity |]. split; [reflexivity |].
  intros i j Hi Hj. cbn.
  rewrite (small_index n i Hi), (small_index m j Hj). reflexivity.
Qed.

Lemma fill_diagonal_matrix (v : scalar) (a : Tensor) (n m : nat) :
  shape a = [n; m] ->
  exists s, fill_diagonal_ v a = Ok s /\ shape s = [n; m]
            /\ forall i j, item s [i; j] = if i =? j then v else item a [i; j].
Proof.
  intros Ha. open_tensor a. eexists. split; [reflexivity |].
  split; reflexivity.
Qed.

Section Matrices.

Variables (n m d : nat) (x1 x2 : Tensor).
Hypothesis shape_x1 : shape x1 = [n; d].
Hypothesis shape_x2 : shape x2 = [m; d].

Lemma sim_matrix (self : BitDistance) (postprocess x1_eq_x2 : bool) :
  (fast_path x1_eq_x2 x1 x2 = true -> m = n) ->
  exists r,
    _sim self x1 x2 postprocess x1_eq_x2 "tanimoto"
      = Ok (Some (post self postprocess r))
    /\ shape r = [n; m]
    /\ forall i j, i < n -> j < m ->
         item r [i; j]
         = fclamp_min 0
             (if fast_path x1_eq_x2 x1 x2 && (i =? j) then Fin 1
              else quotient d (fast_path x1_eq_x2 x1 x2) x1 x2 i j).
Proof.
  intros Hsq. unfold _sim. cbn [metric_in supported_metrics existsb].
  change (("tanimoto" =? "tanimoto")%string) with true. cbn [orb negb].
  fold (fast_path x1_eq_x2 x1 x2).
  destruct (transpose_matrix x2 m d shape_x2) as (x2t & -> & Ht & Hti).
  destruct (matmul_matrix x1 x2t n d m shape_x1 Ht) as (c & Hc & Hcs & Hci).
  cbn [bind]. rewrite Hc. cbn [bind].
  destruct (norm_keepdim x1 n d shape_x1) as (Hn1s & Hn1i).
  destruct (norm_flat x2 m d shape_x2) as (Hn2s & Hn2i).
  destruct (fast_path x1_eq_x2 x1 x2) eqn:Hfast.
  - specialize (Hsq eq_refl). subst m.
    destruct (add_column_itself _ n Hn1s) as (s & -> & Hss & Hsi).
    cbn [bind].
    destruct (pointwise_matrix fsub s c n n Hss Hcs) as (dn & Hd & Hds & Hdi).
    unfold sub. rewrite Hd. cbn [bind].
    destruct (pointwise_matrix fdiv c dn n n Hcs Hds) as (q & Hq & Hqs & Hqi).
    unfold div. rewrite Hq. cbn [bind].
    destruct (fill_diagonal_matrix (Fin 1) q n n Hqs) as (r & -> & Hrs & Hri).
    cbn [bind]. exists (clamp_min_ 0 r). split; [reflexivity |].
    split; [exact Hrs |].
    intros i j Hi Hj. cbn. rewrite Hri. f_equal.
    destruct (i =? j); [reflexivity |].
    rewrite Hqi, Hdi, Hsi, Hci, !Hn1i by assumption.
    unfold quotient, row_dot.
    erewrite map_ext; [reflexivity |]. intros k. cbn. now rewrite Hti.
  - destruct (add_column_row _ _ n m Hn1s Hn2s) as (s & -> & Hss & Hsi).
    cbn [bind].
    destruct (pointwise_matrix fsub s c n m Hss Hcs) as (dn & Hd & Hds & Hdi).
    unfold sub. rewrite Hd. cbn [bind].
    destruct (pointwise_matrix fdiv c dn n m Hcs Hds) as (q & Hq & Hqs & Hqi).
    unfold div. rewrite Hq. cbn [bind].
    exists (clamp_min_ 0 q). split; [reflexivity |].
    split; [exact Hqs |].
    intros i j Hi Hj. cbn. f_equal.
    rewrite Hqi, Hdi, Hsi, Hci, Hn1i, Hn2i by assumption.
    unfold quotient, row_dot.
    erewrite map_ext; [reflexivity |]. intros k. cbn. now rewrite Hti.
Qed.

End Matrices.

(** ** Rational values of the sums *)

Lemma Qsquare_nonneg (x : Q) : (0 <= x * x)%Q.
Proof. nra. Qed.

Section Sums.

Variables f g : nat -> Q.

Lemma sum_prod_comm (l : list nat) : (sum_prod f g l == sum_prod g f l)%Q.
Proof.
  induction l as [| k l IH]; cbn; [reflexivity |].
  fold (sum_prod f g l). fold (sum_prod g f l). rewrite IH. ring.
Qed.

Lemma sum_prod_ext (f' g' : nat -> Q) (l : list nat) :
  (forall k, In k l -> (f k == f' k)%Q) ->
  (forall k, In k l -> (g k == g' k)%Q) ->
  (sum_prod f g l == sum_prod f' g' l)%Q.
Proof.
  induction l as [| k l IH]; intros Hf Hg; cbn; [reflexivity |].
  fold (sum_prod f g l). fold (sum_prod f' g' l).
  rewrite IH by (intros; (apply Hf || apply Hg); now right).
  rewrite (Hf k), (Hg k) by now left. reflexivity.
Qed.

Lemma sum_squares_nonneg (l : list nat) : (0 <= sum_prod f f l)%Q.
Proof.
  induction l as [| k l IH]; cbn; [lra |].
  fold (sum_prod f f l).
  assert (0 <= f k * f k)%Q as Hsq by apply Qsquare_nonneg. lra.
Qed.

Lemma sum_squares_pos (l : list nat) (k : nat) :
  In k l -> ~ (f k == 0)%Q -> (0 < sum_prod f f l)%Q.
Proof.
  induction l as [| k' l IH]; intros Hin Hk; [contradiction |].
  cbn. fold (sum_prod f f l).
  pose proof (sum_squares_nonneg l) as Hl.
  destruct Hin as [-> | Hin].
  - assert (0 <= f k * f k)%Q as Hsq by apply Qsquare_nonneg.
    assert (~ (f k * f k == 0)%Q) as Hne.
    { intros Hz. apply Qmult_integral in Hz. tauto. }
    lra.
  - specialize (IH Hin Hk).
    assert (0 <= f k' * f k')%Q as Hsq by apply Qsquare_nonneg. lra.
Qed.

Lemma sum_squares_zero (l : list nat) :
  (forall k, In k l -> (f k == 0)%Q) -> (sum_prod f g l == 0)%Q.
Proof.
  induction l as [| k l IH]; intros Hz; cbn; [reflexivity |].
  fold (sum_prod f g l).
  rewrite IH by (intros; apply Hz; now right).
  rewrite (Hz k) by now left. ring.
Qed.

(** Twice the dot product is at most the sum of the squared norms. *)
Lemma twice_dot_le (l : list nat) :
  (2 * sum_prod f g l <= sum_prod f f l + sum_prod g g l)%Q.
Proof.
  induction l as [| k l IH]; cbn; [lra |].
  fold (sum_prod f g l) (sum_prod f f l) (sum_prod g g l).
  assert (0 <= (f k - g k) * (f k - g k))%Q as Hsq by apply Qsquare_nonneg.
  assert ((f k - g k) * (f k - g k) == f k * f k + g k * g k - 2 * (f k * g k))%Q
    as Hex by ring.
  rewrite Hex in Hsq. lra.
Qed.

End Sums.

(** ** Matrices of finite numbers *)

Lemma is_fin_entry (x : Tensor) (i k : nat) :
  is_fin (item x [i; k]) -> item x [i; k] = Fin (entry x i k).
Proof.
  unfold entry. destruct (item x [i; k]); cbn; intros H; now try contradiction.
Qed.

Lemma row_dot_real (d : nat) (a b : Tensor) (i j : nat) :
  (forall k, k < d -> is_fin (item a [i; k])) ->
  (forall k, k < d -> is_fin (item b [j; k])) ->
  row_dot d a i b j = Fin (dotQ d a i b j).
Proof.
  intros Ha Hb. unfold row_dot, dotQ.
  assert (forall k, In k (seq 0 d) -> k < d) as Hl
    by (intros k Hk; apply in_seq in Hk; lia).
  induction (seq 0 d) as [| k l IH]; [reflexivity |].
  cbn [map fsum fold_right sum_prod].
  fold (fsum (map (fun k0 => fmul (item a [i; k0]) (item b [j; k0])) l)).
  rewrite IH by (intros; apply Hl; now right).
  rewrite (is_fin_entry a i k), (is_fin_entry b j k)
    by (apply Ha || apply Hb; apply Hl; now left).
  reflexivity.
Qed.

Lemma fdiv_pos (x y : Q) : (0 < y)%Q -> fdiv (Fin x) (Fin y) = Fin (x / y).
Proof.
  intros Hy. cbn. destruct (Qeq_bool y 0) eqn:E; [| reflexivity].
  apply Qeq_bool_eq in E. lra.
Qed.

Lemma fdiv_zero_zero (x y : Q) :
  (x == 0)%Q -> (y == 0)%Q -> fdiv (Fin x) (Fin y) = NaN.
Proof.
  intros Hx Hy. cbn. rewrite (Qeq_eq_bool _ _ Hy). unfold Qsgn.
  now rewrite (proj1 (Qeq_alt x 0) Hx).
Qed.

Lemma clamp_max (q : Q) : ((if Qle_bool 0 q then q else 0) == Qmax 0 q)%Q.
Proof.
  destruct (Qle_bool 0 q) eqn:E.
  - apply Qle_bool_iff in E. now rewrite Q.max_r.
  - assert (~ (0 <= q)%Q) as Hn
      by (intros H; apply Qle_bool_iff in H; congruence).
    rewrite Q.max_l; [reflexivity | lra].
Qed.

(** A matrix literal holds finite numbers only. *)
Lemma real_matrix_literal (rows : list (list Q)) :
  real_matrix (length rows) (length (hd [] rows)) (matrix rows).
Proof.
  split; [reflexivity |]. intros i k _ _. exact I.
Qed.

(** *** What [torch.equal] tells *)

Lemma shape_eqb_eq (s t : list nat) : shape_eqb s t = true -> s = t.
Proof.
  revert t. induction s as [| a s IH]; intros [| b t]; cbn; try discriminate.
  - reflexivity.
  - intros H. apply andb_prop in H as [Hab Hst].
    apply Nat.eqb_eq in Hab. subst. f_equal. now apply IH.
Qed.

Lemma shape_eqb_refl (s : list nat) : shape_eqb s s = true.
Proof.
  induction s as [| a s IH]; cbn; [reflexivity |].
  now rewrite Nat.eqb_refl, IH.
Qed.

Lemma in_indices_matrix (n d i k : nat) :
  i < n -> k < d -> In [i; k] (indices [n; d]).
Proof.
  intros Hi Hk. cbn [indices]. apply in_flat_map. exists i. split.
  - apply in_seq. lia.
  - apply in_map. apply in_flat_map. exists k. split.
    + apply in_seq. lia.
    + now left.
Qed.

Lemma equal_shape (a b : Tensor) : equal a b = true -> shape a = shape b.
Proof.
  unfold equal. intros H. apply andb_prop in H as [H _].
  now apply shape_eqb_eq.
Qed.

Lemma equal_entry (a b : Tensor) (n d i k : nat) :
  equal a b = true -> shape a = [n; d] -> i < n -> k < d ->
  (entry a i k == entry b i k)%Q.
Proof.
  unfold equal. intros H Hs Hi Hk. apply andb_prop in H as [_ H].
  rewrite forallb_forall in H. rewrite Hs in H.
  specialize (H [i; k] (in_indices_matrix n d i k Hi Hk)).
  unfold entry, feqb in *.
  destruct (item a [i; k]), (item b [i; k]); try discriminate;
    try reflexivity.
  now apply Qeq_bool_eq.
Qed.

Lemma fast_path_equal (x1 x2 : Tensor) :
  fast_path (equal x1 x2) x1 x2 = true -> equal x1 x2 = true.
Proof.
  unfold fast_path. intros H.
  apply andb_prop in H as [H _]. now apply andb_prop in H as [H _].
Qed.

(** *** The denominator and the quotient *)

Lemma sum_squares_zero_inv (f : nat -> Q) (l : list nat) :
  (sum_prod f f l == 0)%Q -> forall k, In k l -> (f k == 0)%Q.
Proof.
  induction l as [| k0 l IH]; intros Hz k Hin; [contradiction |].
  cbn in Hz. fold (sum_prod f f l) in Hz.
  pose proof (sum_squares_nonneg f l) as Hl.
  pose proof (Qsquare_nonneg (f k0)) as Hk0.
  destruct Hin as [<- | Hin].
  - assert (f k0 * f k0 == 0)%Q as Hsq by lra.
    apply Qmult_integral in Hsq. tauto.
  - apply IH; [lra | exact Hin].
Qed.

Lemma norm_zero_row (d : nat) (x : Tensor) (i : nat) :
  (dotQ d x i x i == 0)%Q -> zero_row d x i.
Proof.
  intros Hz k Hk. apply (sum_squares_zero_inv _ _ Hz). apply in_seq. lia.
Qed.

Lemma zero_row_dot_l (d : nat) (x y : Tensor) (i j : nat) :
  zero_row d x i -> (dotQ d x i y j == 0)%Q.
Proof.
  intros Hz. apply sum_squares_zero. intros k Hk. apply Hz.
  apply in_seq in Hk. lia.
Qed.

Lemma zero_row_dot_r (d : nat) (x y : Tensor) (i j : nat) :
  zero_row d y j -> (dotQ d x i y j == 0)%Q.
Proof.
  intros Hz. unfold dotQ. rewrite sum_prod_comm. now apply zero_row_dot_l.
Qed.

Lemma denominator_pos (d : nat) (x1 x2 : Tensor) (i j : nat) :
  ~ (zero_row d x1 i /\ zero_row d x2 j) ->
  (0 < dotQ d x1 i x1 i + dotQ d x2 j x2 j - dotQ d x1 i x2 j)%Q.
Proof.
  intros Hnz.
  pose proof (sum_squares_nonneg (entry x1 i) (seq 0 d)) as Ha.
  pose proof (sum_squares_nonneg (entry x2 j) (seq 0 d)) as Hb.
  pose proof (twice_dot_le (entry x1 i) (entry x2 j) (seq 0 d)) as Hc.
  fold (dotQ d x1 i x1 i) in *. fold (dotQ d x2 j x2 j) in *.
  fold (dotQ d x1 i x2 j) in *.
  destruct (Qlt_le_dec 0 (dotQ d x1 i x1 i + dotQ d x2 j x2 j)) as [Hp | Hn].
  - lra.
  - exfalso. apply Hnz. split; apply norm_zero_row; lra.
Qed.

Lemma tanimoto_le_1 (d : nat) (x1 x2 : Tensor) (i j : nat) :
  ~ (zero_row d x1 i /\ zero_row d x2 j) ->
  (tanimotoQ d x1 i x2 j <= 1)%Q.
Proof.
  intros Hnz. pose proof (denominator_pos d x1 x2 i j Hnz) as Hd.
  pose proof (twice_dot_le (entry x1 i) (entry x2 j) (seq 0 d)) as Hc.
  fold (dotQ d x1 i x1 i) in *. fold (dotQ d x2 j x2 j) in *.
  fold (dotQ d x1 i x2 j) in *.
  unfold tanimotoQ. apply Qle_shift_div_r; [exact Hd | lra].
Qed.

Lemma dotQ_equal (n d : nat) (x1 x2 : Tensor) (i j : nat) :
  equal x1 x2 = true -> shape x1 = [n; d] -> i < n -> j < n ->
  (dotQ d x1 i x1 j == dotQ d x1 i x2 j)%Q
  /\ (dotQ d x1 j x1 j == dotQ d x2 j x2 j)%Q.
Proof.
  intros He Hs Hi Hj.
  split; apply sum_prod_ext; intros k Hk; apply in_seq in Hk;
    try reflexivity; apply (equal_entry x1 x2 n d); auto; lia.
Qed.

Lemma quotient_real (n m d : nat) (x1 x2 : Tensor) (fast : bool) (i j : nat) :
  real_matrix n d x1 -> real_matrix m d x2 -> (fast = true -> m = n) ->
  i < n -> j < m ->
  quotient d fast x1 x2 i j
  = fdiv (Fin (dotQ d x1 i x2 j))
         (Fin (dotQ d x1 i x1 i
               + (if fast then dotQ d x1 j x1 j else dotQ d x2 j x2 j)
               - dotQ d x1 i x2 j)).
Proof.
  intros [Hs1 Hf1] [Hs2 Hf2] Hsq Hi Hj. unfold quotient.
  rewrite (row_dot_real d x1 x2 i j), (row_dot_real d x1 x1 i i) by auto.
  destruct fast.
  - specialize (Hsq eq_refl). subst m.
    rewrite (row_dot_real d x1 x1 j j) by auto. reflexivity.
  - rewrite (row_dot_real d x2 x2 j j) by auto. reflexivity.
Qed.

(** *** The entries of the matrix that is returned *)

Lemma fast_same_rows (n m d : nat) (x1 x2 : Tensor) :
  shape x1 = [n; d] -> shape x2 = [m; d] ->
  fast_path (equal x1 x2) x1 x2 = true -> m = n.
Proof.
  intros H1 H2 Hf. apply fast_path_equal, equal_shape in Hf. congruence.
Qed.

Lemma matrix_entries (n m d : nat) (x1 x2 : Tensor) (self : BitDistance)
    (postprocess : bool) :
  real_matrix n d x1 -> real_matrix m d x2 ->
  exists r,
    _sim self x1 x2 postprocess (equal x1 x2) "tanimoto"
      = Ok (Some (post self postprocess r))
    /\ shape r = [n; m]
    /\ forall i j, i < n -> j < m ->
         (~ (zero_row d x1 i /\ zero_row d x2 j) ->
          exists q, item r [i; j] = Fin q
                    /\ (q == Qmax 0 (tanimotoQ d x1 i x2 j))%Q)
         /\ (zero_row d x1 i -> zero_row d x2 j ->
             item r [i; j]
             = if fast_path (equal x1 x2) x1 x2 && (i =? j) then Fin 1
               else NaN).
Proof.
  intros R1 R2. pose proof R1 as [Hs1 Hf1]. pose proof R2 as [Hs2 Hf2].
  pose proof (fast_same_rows n m d x1 x2 Hs1 Hs2) as Hsq.
  destruct (sim_matrix n m d x1 x2 Hs1 Hs2 self postprocess (equal x1 x2) Hsq)
    as (r & Hr & Hrs & Hri).
  exists r. split; [exact Hr |]. split; [exact Hrs |].
  intros i j Hi Hj. rewrite (Hri i j Hi Hj). clear Hri Hr.
  rewrite (quotient_real n m d x1 x2 _ i j R1 R2 Hsq Hi Hj).
  set (c := dotQ d x1 i x2 j). set (a := dotQ d x1 i x1 i).
  set (b := dotQ d x2 j x2 j).
  assert (((if fast_path (equal x1 x2) x1 x2 then dotQ d x1 j x1 j else b)
           == b)%Q) as Hb.
  { destruct (fast_path (equal x1 x2) x1 x2) eqn:Hfast; [| reflexivity].
    pose proof (Hsq eq_refl) as ->.
    apply (dotQ_equal n d x1 x2 i j); auto. now apply fast_path_equal. }
  split.
  - intros Hnz. pose proof (denominator_pos d x1 x2 i j Hnz) as Hd.
    fold a b c in Hd.
    destruct (fast_path (equal x1 x2) x1 x2 && (i =? j)) eqn:Hdiag.
    + apply andb_prop in Hdiag as [Hfast Hij]. apply Nat.eqb_eq in Hij.
      subst j. pose proof (Hsq Hfast) as ->.
      exists 1%Q. split; [reflexivity |].
      destruct (dotQ_equal n d x1 x2 i i (fast_path_equal _ _ Hfast) Hs1 Hi Hi)
        as [Hc Hbb].
      fold a c in Hc. fold a b in Hbb.
      assert (tanimotoQ d x1 i x2 i == 1)%Q as ->.
      { unfold tanimotoQ. fold a b c. rewrite <- Hc, <- Hbb.
        rewrite <- Hc, <- Hbb in Hd. field. lra. }
      now rewrite Q.max_r.
    + set (b' := if fast_path (equal x1 x2) x1 x2 then dotQ d x1 j x1 j
                 else b) in *.
      rewrite fdiv_pos by lra. cbn [fclamp_min].
      eexists. split; [reflexivity |].
      rewrite clamp_max. unfold tanimotoQ. fold a b c. now rewrite Hb.
  - intros Hz1 Hz2.
    destruct (fast_path (equal x1 x2) x1 x2 && (i =? j)); [reflexivity |].
    rewrite fdiv_zero_zero; [reflexivity | |].
    + now apply zero_row_dot_l.
    + rewrite Hb. unfold a, b, c.
      rewrite (zero_row_dot_l d x1 x1 i i Hz1), (zero_row_dot_l d x2 x2 j j Hz2),
        (zero_row_dot_l d x1 x2 i j Hz1). ring.
Qed.

(** ** Exceptions of the similarity call *)

Lemma torch_error_metric : ~ torch_error unsupported_metric.
Proof.
  unfold torch_error. cbn. intros [H | [H | [H | [H | []]]]]; discriminate H.
Qed.

Lemma pointwise_raise f a b e : pointwise f a b = Raise e -> torch_error e.
Proof.
  unfold pointwise. destruct (broadcast_shapes _ _); intros H; inversion H.
  cbn. auto.
Qed.

Lemma transpose_raise x e : transpose_last2 x = Raise e -> torch_error e.
Proof.
  unfold transpose_last2. destruct (rev (shape x)) as [| b [| a r]];
    intros H; inversion H; cbn; auto.
Qed.

Lemma fill_diagonal_raise v x e : fill_diagonal_ v x = Raise e -> torch_error e.
Proof.
  unfold fill_diagonal_. destruct (rev (shape x)) as [| b [| a r]];
    intros H; inversion H; cbn; auto.
Qed.

Lemma matmul_raise a b e : matmul a b = Raise e -> torch_error e.
Proof.
  unfold matmul.
  destruct (rev (shape a)) as [| k1 [| n rp1]];
    destruct (rev (shape b)) as [| m [| k2 rp2]];
    try destruct (k1 =? m); try destruct (k1 =? k2);
    try destruct (broadcast_rev rp1 rp2);
    intros H; inversion H; cbn; auto 6.
Qed.

Lemma metric_in_supported (mt : string) :
  metric_in mt supported_metrics = true <-> mt = "tanimoto"%string.
Proof.
  unfold metric_in, supported_metrics. cbn. rewrite orb_false_r.
  apply String.eqb_eq.
Qed.

Lemma sim_raise self x1 x2 postprocess x1_eq_x2 e :
  _sim self x1 x2 postprocess x1_eq_x2 "tanimoto" = Raise e -> torch_error e.
Proof.
  unfold _sim. cbn [metric_in supported_metrics existsb].
  change (("tanimoto" =? "tanimoto")%string) with true. cbn [orb negb].
  destruct (transpose_last2 x2) as [x2t |] eqn:E1; cbn [bind];
    [| intros H; inversion H; subst; eapply transpose_raise; eauto].
  destruct (matmul x1 x2t) as [c |] eqn:E2; cbn [bind];
    [| intros H; inversion H; subst; eapply matmul_raise; eauto].
  match goal with |- context [add ?u ?v] =>
    destruct (add u v) as [s |] eqn:E3 end; cbn [bind];
    [| intros H; inversion H; subst; eapply pointwise_raise; eauto].
  destruct (sub s c) as [dn |] eqn:E4; cbn [bind];
    [| intros H; inversion H; subst; eapply pointwise_raise; eauto].
  destruct (div c dn) as [q |] eqn:E5; cbn [bind];
    [| intros H; inversion H; subst; eapply pointwise_raise; eauto].
  destruct (x1_eq_x2 && negb (requires_grad x1) && negb (requires_grad x2)).
  - destruct (fill_diagonal_ (Fin 1) q) eqn:E6; cbn [bind];
      intros H; inversion H; subst; eapply fill_diagonal_raise; eauto.
  - cbn [bind]. discriminate.
Qed.

(** The call of [_sim] inside [covar_dist]. *)
Lemma covar_dist_result st x1 x2 ldb f pp a b :
  relayout ldb x1 = Ok a -> relayout ldb x2 = Ok b ->
  covar_dist st x1 x2 ldb f pp
  = (fst (refresh st f),
     _sim (snd (refresh st f)) a b pp (equal a b)
          (metric (kernel (fst (refresh st f))))).
Proof.
  intros Ha Hb. unfold covar_dist. rewrite Ha, Hb.
  now destruct (refresh st f).
Qed.

Lemma refresh_metric st f : metric (kernel (fst (refresh st f))) = metric (kernel st).
Proof.
  unfold refresh, rebuild.
  destruct (distance_module (kernel st)) as [d |]; [| reflexivity].
  now destruct (func_ne (_postprocess d) f).
Qed.

(** Without [last_dim_is_batch], a kernel with the metric ['tanimoto'] hands
    its inputs to [_sim] as they are, with the outcome of [torch.equal] as
    the hint. *)
Lemma covar_dist_sim st x1 x2 f pp :
  metric (kernel st) = "tanimoto"%string ->
  snd (covar_dist st x1 x2 false f pp)
  = _sim (snd (refresh st f)) x1 x2 pp (equal x1 x2) "tanimoto".
Proof.
  intros Hm.
  rewrite (covar_dist_result st x1 x2 false f pp x1 x2 eq_refl eq_refl).
  cbn [snd]. now rewrite refresh_metric, Hm.
Qed.

Lemma transpose_ok (x : Tensor) :
  2 <= dim x -> exists t, transpose_last2 x = Ok t.
Proof.
  unfold dim, transpose_last2. intros H. rewrite <- length_rev in H.
  destruct (rev (shape x)) as [| b [| a r]]; cbn in H; try lia.
  eexists. reflexivity.
Qed.

Lemma relayout_ok (ldb : bool) (x : Tensor) :
  (ldb = true -> 2 <= dim x) -> exists t, relayout ldb x = Ok t.
Proof.
  intros H. unfold relayout. destruct ldb; [| eexists; reflexivity].
  destruct (transpose_ok x (H eq_refl)) as [t ->]. eexists. reflexivity.
Qed.

Lemma reaches_relayout ldb x1 x2 :
  reaches_cache ldb x1 x2 ->
  exists a b, relayout ldb x1 = Ok a /\ relayout ldb x2 = Ok b.
Proof.
  intros H.
  destruct (relayout_ok ldb x1) as [a Ha]; [intros E; now apply H |].
  destruct (relayout_ok ldb x2) as [b Hb]; [intros E; now apply H |].
  eauto.
Qed.

(** * The claims *)

(** ** C3: the unsupported-metric exception *)

Lemma sim_unsupported_iff self x1 x2 postprocess x1_eq_x2 mt :
  _sim self x1 x2 postprocess x1_eq_x2 mt = Raise unsupported_metric
  <-> metric_in mt supported_metrics = false.
Proof.
  split.
  - intros H. destruct (metric_in mt supported_metrics) eqn:E;
      [| reflexivity].
    apply metric_in_supported in E. subst mt.
    apply sim_raise in H. now apply torch_error_metric in H.
  - intros H. unfold _sim. now rewrite H.
Qed.

Lemma covar_dist_unsupported st x1 x2 ldb f postprocess :
  reaches_cache ldb x1 x2 ->
  metric_in (metric (kernel st)) supported_metrics = false ->
  snd (covar_dist st x1 x2 ldb f postprocess) = Raise unsupported_metric.
Proof.
  intros Hreach Hm.
  destruct (reaches_relayout ldb x1 x2 Hreach) as (a & b & Ha & Hb).
  rewrite (covar_dist_result st x1 x2 ldb f postprocess a b Ha Hb).
  cbn [snd]. apply sim_unsupported_iff. now rewrite refresh_metric.
Qed.

(** C3.  [_sim] raises the unsupported-metric exception if and only if the
    requested metric is not in the supported list, which is ['tanimoto']
    alone.  The test comes first: whatever the tensors and the other
    arguments are, an unsupported metric gives this exception and nothing
    else is computed.  The message names every supported metric, and
    [covar_dist] hands the exception on to its caller. *)
Theorem C3_unsupported_metric :
  (forall self x1 x2 postprocess x1_eq_x2 mt,
      _sim self x1 x2 postprocess x1_eq_x2 mt = Raise unsupported_metric
      <-> metric_in mt supported_metrics = false)
  /\ (forall mt, metric_in mt supported_metrics = true
                 <-> mt = "tanimoto"%string)
  /\ (forall tag, In tag supported_metrics ->
                  contains tag (message unsupported_metric) = true)
  /\ (forall st x1 x2 ldb f postprocess,
         reaches_cache ldb x1 x2 ->
         metric_in (metric (kernel st)) supported_metrics = false ->
         snd (covar_dist st x1 x2 ldb f postprocess)
         = Raise unsupported_metric).
Proof.
  split; [exact sim_unsupported_iff |].
  split; [exact metric_in_supported |]. split.
  - intros tag [<- | []]. reflexivity.
  - exact covar_dist_unsupported.
Qed.

Lemma C3_unsupported_metric_witness :
  _sim {| obj_id := 0; _postprocess := default_postprocess_script |}
       (matrix [[1; 0; 1; 0]]%Q) (vector [1]%Q) true false "euclidean"
  = Raise unsupported_metric.
Proof.
  apply (proj1 C3_unsupported_metric). reflexivity.
Defined.

(** ** C7: the cached distance module *)

Lemma func_ne_refl (f : pyfunc) : func_ne f f = false.
Proof.
  unfold func_ne, func_eq. destruct (kind f); now rewrite !Nat.eqb_refl.
Qed.

Lemma refresh_stale st f :
  stale st f ->
  fst (refresh st f)
  = {| constructed := S (constructed st);
       kernel := {| metric := metric (kernel st);
                    distance_module :=
                      Some {| obj_id := constructed st;
                              _postprocess := f |} |} |}.
Proof.
  unfold stale, refresh, rebuild.
  intros [-> | (d & -> & ->)]; reflexivity.
Qed.

Lemma refresh_kept st f : ~ stale st f -> fst (refresh st f) = st.
Proof.
  unfold stale, refresh, rebuild. intros Hn.
  destruct (distance_module (kernel st)) as [d |] eqn:E.
  - destruct (func_ne (_postprocess d) f) eqn:Hne; [| reflexivity].
    exfalso. apply Hn. right. eauto.
  - exfalso. apply Hn. now left.
Qed.

Lemma stale_dec st f : stale st f \/ ~ stale st f.
Proof.
  unfold stale. destruct (distance_module (kernel st)) as [d |].
  - destruct (func_ne (_postprocess d) f) eqn:Hne.
    + left. right. eauto.
    + right. intros [H | (d' & H & Hne')]; [discriminate |].
      inversion H. subst. congruence.
  - left. now left.
Qed.

Lemma refresh_fresh st f : ~ stale (fst (refresh st f)) f.
Proof.
  destruct (stale_dec st f) as [Hs | Hn].
  - rewrite (refresh_stale st f Hs). unfold stale. cbn.
    intros [H | (d & H & Hne)]; [discriminate |].
    inversion H. subst. cbn in Hne. rewrite func_ne_refl in Hne.
    discriminate.
  - now rewrite (refresh_kept st f Hn).
Qed.

(** For function objects [!=] is a difference of identity. *)
Lemma func_ne_plain (f g : pyfunc) :
  kind f = PlainFunction -> kind g = PlainFunction ->
  func_ne f g = true <-> func_id f <> func_id g.
Proof.
  intros Hf Hg. unfold func_ne, func_eq. rewrite Hf, Hg.
  rewrite negb_true_iff. apply Nat.eqb_neq.
Qed.

Lemma covar_dist_state st x1 x2 ldb f pp :
  fst (covar_dist st x1 x2 ldb f pp) = fst (refresh st f)
  \/ fst (covar_dist st x1 x2 ldb f pp) = st.
Proof.
  unfold covar_dist.
  destruct (relayout ldb x1); [| now right].
  destruct (relayout ldb x2); [| now right].
  left. now destruct (refresh st f).
Qed.

Lemma covar_dist_reached st x1 x2 ldb f pp :
  reaches_cache ldb x1 x2 ->
  fst (covar_dist st x1 x2 ldb f pp) = fst (refresh st f).
Proof.
  intros Hreach.
  destruct (reaches_relayout ldb x1 x2 Hreach) as (a & b & Ha & Hb).
  now rewrite (covar_dist_result st x1 x2 ldb f pp a b Ha Hb).
Qed.

Lemma refresh_constructed st f :
  constructed st <= constructed (fst (refresh st f)) <= S (constructed st).
Proof.
  destruct (stale_dec st f) as [Hs | Hn].
  - rewrite (refresh_stale st f Hs). cbn. lia.
  - rewrite (refresh_kept st f Hn). lia.
Qed.

(** C7, as amended.  A call of [covar_dist] that gets past the re-layout of
    lines 127-129 constructs a new [BitDistance] exactly when the cache holds
    none or holds one whose post-processing function [!=] tells from the
    requested one; the new module is built with the requested function, and
    otherwise the state is left as it was.  Hence a second call with the
    same function constructs nothing and leaves the module of the first call
    in place, and two calls with the same function never construct more
    than one module between them.  For function objects [!=] is a difference
    of identity. *)
Theorem C7_cache_rebuilt_exactly_when_stale :
  (forall st x1 x2 ldb f postprocess,
      reaches_cache ldb x1 x2 ->
      let st' := fst (covar_dist st x1 x2 ldb f postprocess) in
      (constructed st' = S (constructed st) <-> stale st f)
      /\ (stale st f ->
          distance_module (kernel st')
          = Some {| obj_id := constructed st; _postprocess := f |})
      /\ (~ stale st f -> st' = st))
  /\ (forall st x1 x2 ldb f postprocess y1 y2 ldb' postprocess',
         reaches_cache ldb x1 x2 ->
         let st1 := fst (covar_dist st x1 x2 ldb f postprocess) in
         fst (covar_dist st1 y1 y2 ldb' f postprocess') = st1)
  /\ (forall st x1 x2 ldb f postprocess y1 y2 ldb' postprocess',
         let st1 := fst (covar_dist st x1 x2 ldb f postprocess) in
         let st2 := fst (covar_dist st1 y1 y2 ldb' f postprocess') in
         constructed st2 <= S (constructed st))
  /\ (forall st f d,
         distance_module (kernel st) = Some d ->
         kind (_postprocess d) = PlainFunction -> kind f = PlainFunction ->
         stale st f <-> func_id (_postprocess d) <> func_id f).
Proof.
  split; [| split; [| split]]; cycle 3.
  { intros st f d Hd Hk Hf. unfold stale. rewrite Hd. split.
    - intros [H | (d' & H & Hne)]; [discriminate |].
      inversion H. subst. now apply func_ne_plain.
    - intros Hne. right. exists d. split; [reflexivity |].
      now apply func_ne_plain. }
  - intros st x1 x2 ldb f pp Hreach st'. subst st'.
    rewrite (covar_dist_reached st x1 x2 ldb f pp Hreach).
    split; [| split].
    + split.
      * intros Hc. destruct (stale_dec st f) as [Hs | Hn]; [exact Hs |].
        rewrite (refresh_kept st f Hn) in Hc. lia.
      * intros Hs. now rewrite (refresh_stale st f Hs).
    + intros Hs. now rewrite (refresh_stale st f Hs).
    + apply refresh_kept.
  - intros st x1 x2 ldb f pp y1 y2 ldb' pp' Hreach st1. subst st1.
    rewrite (covar_dist_reached st x1 x2 ldb f pp Hreach).
    destruct (covar_dist_state (fst (refresh st f)) y1 y2 ldb' f pp')
      as [-> | ->]; [| reflexivity].
    apply refresh_kept, refresh_fresh.
  - intros st x1 x2 ldb f pp y1 y2 ldb' pp' st1 st2. subst st1 st2.
    destruct (covar_dist_state st x1 x2 ldb f pp) as [E1 | E1]; rewrite E1.
    + destruct (covar_dist_state (fst (refresh st f)) y1 y2 ldb' f pp')
        as [-> | ->].
      * rewrite (refresh_kept _ f (refresh_fresh st f)).
        apply refresh_constructed.
      * apply refresh_constructed.
    + destruct (covar_dist_state st y1 y2 ldb' f pp') as [-> | ->].
      * apply refresh_constructed.
      * lia.
Qed.

Lemma C7_cache_rebuilt_exactly_when_stale_witness :
  let x := matrix [[1; 0; 1; 0]]%Q in
  let st1 :=
    fst (covar_dist (fresh "tanimoto") x x false default_postprocess_script
           true) in
  constructed st1 = 1
  /\ fst (covar_dist st1 x x false default_postprocess_script true) = st1
  /\ constructed (fst (covar_dist st1 x x false other_postprocess true)) = 2.
Proof.
  intros x st1.
  assert (reaches_cache false x x) as Hreach by (intros H; discriminate H).
  split; [| split].
  - apply (proj1 (proj1 C7_cache_rebuilt_exactly_when_stale
                   (fresh "tanimoto") x x false default_postprocess_script
                   true Hreach)).
    left. reflexivity.
  - apply (proj1 (proj2 C7_cache_rebuilt_exactly_when_stale)
             (fresh "tanimoto") x x false default_postprocess_script true
             x x false true Hreach).
  - apply (proj1 (proj1 C7_cache_rebuilt_exactly_when_stale
                   st1 x x false other_postprocess true Hreach)).
    right. eexists. split; reflexivity.
Defined.

(** C7 as it was stated fails in two ways.  A call that raises in the
    re-layout (an input with one axis under [last_dim_is_batch]) constructs
    nothing although the cache is empty.  And the comparison of line 139 is
    [!=], not a comparison of identities: after a call with one bound method,
    a call with another bound-method object of the same object and function
    keeps the module, although the two functions are distinct objects. *)
Lemma C7_cache_counterexample :
  (distance_module (kernel (fresh "tanimoto")) = None
   /\ fst (covar_dist (fresh "tanimoto") (vector [1; 0; 1; 0]%Q)
             (vector [1; 0; 1; 0]%Q) true default_postprocess_script true)
      = fresh "tanimoto")
  /\ (let x := matrix [[1; 0; 1; 0]]%Q in
      let st1 :=
        fst (covar_dist (fresh "tanimoto") x x false first_bound_method
               true) in
      func_id second_bound_method <> func_id first_bound_method
      /\ distance_module (kernel st1)
         = Some {| obj_id := 0; _postprocess := first_bound_method |}
      /\ fst (covar_dist st1 x x false second_bound_method true) = st1).
Proof.
  split; [split; reflexivity |].
  split; [discriminate |]. split; reflexivity.
Qed.

(** ** C10: the default metric *)

Lemma covar_dist_metric st x1 x2 ldb f pp :
  metric (kernel (fst (covar_dist st x1 x2 ldb f pp))) = metric (kernel st).
Proof.
  destruct (covar_dist_state st x1 x2 ldb f pp) as [-> | ->];
    [apply refresh_metric | reflexivity].
Qed.

(** C10, as amended.  On a kernel whose metric is the default [''], every
    call of [forward] (that is, of [covar_dist]) that gets as far as the
    similarity computation raises the unsupported-metric exception, and the
    metric is still the default afterwards; these are all calls without
    [last_dim_is_batch], and with it all calls whose inputs have at least
    two axes.  No call returns unless the metric is ['tanimoto']. *)
Theorem C10_default_metric_raises :
  (forall st x1 x2 ldb f postprocess,
      metric (kernel st) = default_metric ->
      reaches_cache ldb x1 x2 ->
      snd (forward st x1 x2 ldb f postprocess) = Raise unsupported_metric
      /\ metric (kernel (fst (forward st x1 x2 ldb f postprocess)))
         = default_metric)
  /\ (forall st x1 x2 ldb f postprocess v,
         snd (forward st x1 x2 ldb f postprocess) = Ok v ->
         metric (kernel st) = "tanimoto"%string).
Proof.
  unfold forward. split.
  - intros st x1 x2 ldb f pp Hm Hreach. split.
    + apply covar_dist_unsupported; [exact Hreach |]. now rewrite Hm.
    + now rewrite covar_dist_metric.
  - intros st x1 x2 ldb f pp v. unfold covar_dist.
    destruct (relayout ldb x1) as [a |]; [| discriminate].
    destruct (relayout ldb x2) as [b |]; [| discriminate].
    pose proof (refresh_metric st f) as Hm.
    destruct (refresh st f) as [st' d]. cbn [fst snd] in *. rewrite Hm.
    unfold _sim.
    destruct (metric_in (metric (kernel st)) supported_metrics) eqn:E;
      [| discriminate].
    intros _. now apply metric_in_supported.
Qed.

Lemma C10_default_metric_raises_witness :
  snd (forward (fresh default_metric) (matrix [[1; 0; 1; 0]]%Q)
         (matrix [[1; 0; 1; 0]]%Q) false default_postprocess_script true)
  = Raise unsupported_metric.
Proof.
  apply (proj1 C10_default_metric_raises); [reflexivity |].
  intros H. discriminate H.
Defined.

(** C10 as it was stated fails: with [last_dim_is_batch] and an input that
    has a single axis, the transposition of lines 128-129 raises its index
    error before the metric is looked at. *)
Lemma C10_default_metric_counterexample :
  snd (forward (fresh default_metric) (vector [1; 0; 1; 0]%Q)
         (vector [1; 0; 1; 0]%Q) true default_postprocess_script true)
  = Raise dim_out_of_range
  /\ snd (forward (fresh default_metric) (vector [1; 0; 1; 0]%Q)
            (vector [1; 0; 1; 0]%Q) true default_postprocess_script true)
     <> Raise unsupported_metric.
Proof.
  split; [reflexivity | discriminate].
Qed.

(** ** C1: the value of an entry *)

(** C1, as amended.  In exact arithmetic (no sum, product or quotient
    rounds, overflows or wraps around), for matrices [x1] ([n x d]) and [x2]
    ([m x d]) of finite numbers, the call returns, before the optional
    post-processing, an [n x m] matrix, and for rows [i] of [x1] and [j] of
    [x2] that are not both zero its entry [i, j] is the larger of 0 and
    [<x, y> / (||x||^2 + ||y||^2 - <x, y>)]: the quotient, with a negative
    quotient replaced by 0.  On [[1,1,0,0]] and [[1,0,0,0]] the call returns
    [[0.5]], on [[1,1,0,0]] and [[0,0,1,1]] it returns [[0.0]]. *)
Theorem C1_tanimoto_entry :
  (forall n m d x1 x2 self postprocess i j,
      real_matrix n d x1 -> real_matrix m d x2 ->
      i < n -> j < m ->
      ~ (zero_row d x1 i /\ zero_row d x2 j) ->
      exists r q,
        _sim self x1 x2 postprocess (equal x1 x2) "tanimoto"
          = Ok (Some (post self postprocess r))
        /\ shape r = [n; m]
        /\ item r [i; j] = Fin q
        /\ (q == Qmax 0 (tanimotoQ d x1 i x2 j))%Q)
  /\ (exists r,
         similarity (matrix [[1; 1; 0; 0]]%Q) (matrix [[1; 0; 0; 0]]%Q)
           = Ok (Some r)
         /\ shape r = [1; 1] /\ values r = [Fin (1 # 2)])
  /\ (exists r,
         similarity (matrix [[1; 1; 0; 0]]%Q) (matrix [[0; 0; 1; 1]]%Q)
           = Ok (Some r)
         /\ shape r = [1; 1] /\ values r = [Fin 0]).
Proof.
  split; [| split].
  - intros n m d x1 x2 self pp i j R1 R2 Hi Hj Hnz.
    destruct (matrix_entries n m d x1 x2 self pp R1 R2)
      as (r & Hr & Hs & He).
    destruct (proj1 (He i j Hi Hj) Hnz) as (q & Hq & Hv).
    exists r, q. auto.
  - eexists. split; [reflexivity |]. split; reflexivity.
  - eexists. split; [reflexivity |]. split; reflexivity.
Qed.

Lemma C1_tanimoto_entry_witness :
  exists r q,
    _sim {| obj_id := 0; _postprocess := default_postprocess_script |}
         (matrix [[1; 1; 0; 0]]%Q) (matrix [[1; 0; 0; 0]]%Q) true
         (equal (matrix [[1; 1; 0; 0]]%Q) (matrix [[1; 0; 0; 0]]%Q))
         "tanimoto"
      = Ok (Some (post {| obj_id := 0;
                          _postprocess := default_postprocess_script |}
                       true r))
    /\ shape r = [1; 1]
    /\ item r [0; 0] = Fin q
    /\ (q == Qmax 0 (tanimotoQ 4 (matrix [[1; 1; 0; 0]]%Q) 0
                       (matrix [[1; 0; 0; 0]]%Q) 0))%Q.
Proof.
  apply (proj1 C1_tanimoto_entry 1 1 4).
  - apply (real_matrix_literal [[1; 1; 0; 0]]%Q).
  - apply (real_matrix_literal [[1; 0; 0; 0]]%Q).
  - lia.
  - lia.
  - intros [H _]. specialize (H 0 ltac:(lia)). vm_compute in H. discriminate H.
Defined.

(** C1 as it was stated fails where the dot product is negative: for the
    rows [[1]] and [[-1]] the quotient is [-1/3] and the call returns 0. *)
Lemma C1_tanimoto_entry_counterexample :
  let x1 := matrix [[1]]%Q in
  let x2 := matrix [[-1]]%Q in
  exists r,
    similarity x1 x2 = Ok (Some r)
    /\ values r = [Fin 0]
    /\ (tanimotoQ 1 x1 0 x2 0 == - (1 # 3))%Q
    /\ ~ same (item r [0; 0]) (Fin (tanimotoQ 1 x1 0 x2 0)).
Proof.
  intros x1 x2. eexists. split; [reflexivity |].
  split; [reflexivity |]. split; [reflexivity |].
  vm_compute. discriminate.
Qed.

(** ** C2: the diagonal for identical inputs *)

(** C2, as amended.  For matrices [x1] and [x2] that [torch.equal] finds
    identical and of which neither tracks gradients, the call returns,
    before the optional post-processing, a square matrix whose diagonal
    entries are exactly 1. *)
Theorem C2_identical_inputs_diagonal :
  forall n d x1 x2 self postprocess,
    shape x1 = [n; d] ->
    equal x1 x2 = true ->
    requires_grad x1 = false -> requires_grad x2 = false ->
    exists r,
      _sim self x1 x2 postprocess (equal x1 x2) "tanimoto"
        = Ok (Some (post self postprocess r))
      /\ shape r = [n; n]
      /\ forall i, i < n -> item r [i; i] = Fin 1.
Proof.
  intros n d x1 x2 self pp Hs He Hg1 Hg2.
  assert (shape x2 = [n; d]) as Hs2
    by (rewrite <- (equal_shape x1 x2 He); exact Hs).
  assert (fast_path (equal x1 x2) x1 x2 = true) as Hfast
    by (unfold fast_path; now rewrite He, Hg1, Hg2).
  destruct (sim_matrix n n d x1 x2 Hs Hs2 self pp (equal x1 x2)
              (fun _ => eq_refl)) as (r & Hr & Hrs & Hri).
  exists r. split; [exact Hr |]. split; [exact Hrs |].
  intros i Hi. rewrite (Hri i i Hi Hi), Hfast, Nat.eqb_refl. reflexivity.
Qed.

Lemma C2_identical_inputs_diagonal_witness :
  exists r,
    _sim {| obj_id := 0; _postprocess := default_postprocess_script |}
         (matrix [[1; 0; 1; 0]; [0; 0; 0; 0]]%Q)
         (matrix [[1; 0; 1; 0]; [0; 0; 0; 0]]%Q) true
         (equal (matrix [[1; 0; 1; 0]; [0; 0; 0; 0]]%Q)
                (matrix [[1; 0; 1; 0]; [0; 0; 0; 0]]%Q))
         "tanimoto"
      = Ok (Some (post {| obj_id := 0;
                          _postprocess := default_postprocess_script |}
                       true r))
    /\ shape r = [2; 2]
    /\ forall i, i < 2 -> item r [i; i] = Fin 1.
Proof.
  apply (C2_identical_inputs_diagonal 2 4); reflexivity.
Defined.

(** C2 as it was stated fails for inputs that track gradients: the diagonal
    is then not overwritten, and for a zero row it is what [0/0] gives. *)
Lemma C2_identical_inputs_counterexample :
  let x := requires_grad_ (matrix [[0]]%Q) in
  equal x x = true
  /\ exists r, similarity x x = Ok (Some r)
               /\ shape r = [1; 1]
               /\ item r [0; 0] = NaN
               /\ item r [0; 0] <> Fin 1.
Proof.
  intros x. split; [reflexivity |].
  eexists. split; [reflexivity |]. split; [reflexivity |].
  split; [reflexivity | discriminate].
Qed.

(** ** C4: the range of the entries *)

(** X19.  For matrices of finite numbers without an all-zero row, every
    entry of the matrix that the call returns, before the optional
    post-processing, lies between 0 and 1 in exact arithmetic.  Only the
    lower bound is enforced, by [clamp_min_(0)]; that no entry exceeds 1 is a
    property of the quotient. *)
Theorem X19_matrix_entries_in_unit_interval :
  forall n m d x1 x2 self postprocess,
    real_matrix n d x1 -> real_matrix m d x2 ->
    (forall i, i < n -> ~ zero_row d x1 i) ->
    (forall j, j < m -> ~ zero_row d x2 j) ->
    exists r,
      _sim self x1 x2 postprocess (equal x1 x2) "tanimoto"
        = Ok (Some (post self postprocess r))
      /\ shape r = [n; m]
      /\ forall i j, i < n -> j < m ->
           exists q, item r [i; j] = Fin q /\ (0 <= q <= 1)%Q.
Proof.
  intros n m d x1 x2 self pp R1 R2 Hz1 Hz2.
  destruct (matrix_entries n m d x1 x2 self pp R1 R2) as (r & Hr & Hs & He).
  exists r. split; [exact Hr |]. split; [exact Hs |].
  intros i j Hi Hj.
  assert (~ (zero_row d x1 i /\ zero_row d x2 j)) as Hnz
    by (intros [H _]; exact (Hz1 i Hi H)).
  destruct (proj1 (He i j Hi Hj) Hnz) as (q & Hq & Hv).
  exists q. split; [exact Hq |]. rewrite Hv.
  pose proof (tanimoto_le_1 d x1 x2 i j Hnz) as Hle.
  destruct (Q.max_spec 0 (tanimotoQ d x1 i x2 j)) as [[Hlt ->] | [Hge ->]];
    lra.
Qed.

Lemma X19_matrix_entries_in_unit_interval_witness :
  exists r,
    _sim {| obj_id := 0; _postprocess := default_postprocess_script |}
         (matrix [[1; 1; 0; 0]]%Q) (matrix [[1; 0; 0; 0]]%Q) true
         (equal (matrix [[1; 1; 0; 0]]%Q) (matrix [[1; 0; 0; 0]]%Q))
         "tanimoto"
      = Ok (Some (post {| obj_id := 0;
                          _postprocess := default_postprocess_script |}
                       true r))
    /\ shape r = [1; 1]
    /\ forall i j, i < 1 -> j < 1 ->
         exists q, item r [i; j] = Fin q /\ (0 <= q <= 1)%Q.
Proof.
  apply (X19_matrix_entries_in_unit_interval 1 1 4).
  - apply (real_matrix_literal [[1; 1; 0; 0]]%Q).
  - apply (real_matrix_literal [[1; 0; 0; 0]]%Q).
  - intros i Hi H. assert (i = 0) as -> by lia.
    specialize (H 0 ltac:(lia)). vm_compute in H. discriminate H.
  - intros j Hj H. assert (j = 0) as -> by lia.
    specialize (H 0 ltac:(lia)). vm_compute in H. discriminate H.
Defined.

(** C4.  The source documents inputs [b x n x d], and on such inputs the
    entries do not stay below 1: nothing clamps from above, and on the
    batches [ones] and [halves], which have compatible shapes and no zero
    row, the sum of the norms of line 59 pairs the points with the norms of
    another batch and the call returns entries equal to 4.  (On matrices the
    bound holds, see the preceding theorem.) *)
Theorem C4_batched_entry_exceeds_one :
  shape ones = [2; 2; 1] /\ shape halves = [2; 2; 1]
  /\ exists r,
       similarity ones halves = Ok (Some r)
       /\ shape r = [2; 2; 2]
       /\ values r = [Fin 1; Fin 1; Fin 4; Fin 4;
                      Fin (1 # 3); Fin (1 # 3); Fin (2 # 3); Fin (2 # 3)]
       /\ canon (item r [0; 1; 0]) = Fin 4.
Proof.
  split; [reflexivity |]. split; [reflexivity |].
  eexists. split; [reflexivity |]. split; [reflexivity |].
  split; reflexivity.
Qed.

(** ** C9: all-zero rows *)

(** C9, as amended.  Matrices of finite numbers with all-zero rows do not
    make the call fail: it returns a complete [n x m] matrix.  Where row [i]
    of [x1] and row [j] of [x2] are both zero the quotient is [0/0] and the
    entry is not-a-number, except on the diagonal when the inputs are
    identical and track no gradients: those entries are overwritten with 1. *)
Theorem C9_zero_rows :
  forall n m d x1 x2 self postprocess,
    real_matrix n d x1 -> real_matrix m d x2 ->
    exists r,
      _sim self x1 x2 postprocess (equal x1 x2) "tanimoto"
        = Ok (Some (post self postprocess r))
      /\ shape r = [n; m]
      /\ forall i j, i < n -> j < m ->
           zero_row d x1 i -> zero_row d x2 j ->
           item r [i; j]
           = if fast_path (equal x1 x2) x1 x2 && (i =? j) then Fin 1
             else NaN.
Proof.
  intros n m d x1 x2 self pp R1 R2.
  destruct (matrix_entries n m d x1 x2 self pp R1 R2) as (r & Hr & Hs & He).
  exists r. split; [exact Hr |]. split; [exact Hs |].
  intros i j Hi Hj. exact (proj2 (He i j Hi Hj)).
Qed.

Lemma C9_zero_rows_witness :
  exists r,
    _sim {| obj_id := 0; _postprocess := default_postprocess_script |}
         (matrix [[0; 0]]%Q) (matrix [[0; 0]; [1; 1]]%Q) true
         (equal (matrix [[0; 0]]%Q) (matrix [[0; 0]; [1; 1]]%Q))
         "tanimoto"
      = Ok (Some (post {| obj_id := 0;
                          _postprocess := default_postprocess_script |}
                       true r))
    /\ shape r = [1; 2]
    /\ forall i j, i < 1 -> j < 2 ->
         zero_row 2 (matrix [[0; 0]]%Q) i ->
         zero_row 2 (matrix [[0; 0]; [1; 1]]%Q) j ->
         item r [i; j]
         = if fast_path (equal (matrix [[0; 0]]%Q)
                               (matrix [[0; 0]; [1; 1]]%Q))
                        (matrix [[0; 0]]%Q) (matrix [[0; 0]; [1; 1]]%Q)
              && (i =? j)
           then Fin 1 else NaN.
Proof.
  apply (C9_zero_rows 1 2 2).
  - apply (real_matrix_literal [[0; 0]]%Q).
  - apply (real_matrix_literal [[0; 0]; [1; 1]]%Q).
Defined.

(** C9 as it was stated fails on the diagonal of identical inputs: the
    quotient of the zero row with itself is [0/0], and the entry that is
    returned is 1. *)
Lemma C9_zero_rows_counterexample :
  let z := matrix [[0; 0]]%Q in
  zero_row 2 z 0
  /\ quotient 2 true z z 0 0 = NaN
  /\ exists r, similarity z z = Ok (Some r)
               /\ shape r = [1; 1]
               /\ item r [0; 0] = Fin 1.
Proof.
  intros z. split.
  - intros k Hk. destruct k as [| [| k]]; [reflexivity | reflexivity | lia].
  - split; [reflexivity |].
    eexists. split; [reflexivity |]. split; reflexivity.
Qed.

(** ** Symmetry on matrices *)

Lemma shape_eqb_sym (s t : list nat) : shape_eqb s t = shape_eqb t s.
Proof.
  revert t. induction s as [| a s IH]; intros [| b t]; cbn; try reflexivity.
  now rewrite IH, Nat.eqb_sym.
Qed.

Lemma feqb_sym (a b : scalar) : feqb a b = feqb b a.
Proof.
  destruct a as [x | | |], b as [y | | |]; cbn; try reflexivity.
  destruct (Qeq_bool x y) eqn:E1, (Qeq_bool y x) eqn:E2; try reflexivity.
  - apply Qeq_bool_eq in E1. symmetry in E1.
    apply Qeq_eq_bool in E1. congruence.
  - apply Qeq_bool_eq in E2. symmetry in E2.
    apply Qeq_eq_bool in E2. congruence.
Qed.

Lemma equal_sym (a b : Tensor) : equal a b = equal b a.
Proof.
  unfold equal. rewrite (shape_eqb_sym (shape b) (shape a)).
  destruct (shape_eqb (shape a) (shape b)) eqn:E; [| reflexivity].
  apply shape_eqb_eq in E. rewrite E. cbn.
  induction (indices (shape b)) as [| idx l IH]; cbn; [reflexivity |].
  now rewrite IH, feqb_sym.
Qed.

Lemma fast_path_sym (x1 x2 : Tensor) :
  fast_path (equal x1 x2) x1 x2 = fast_path (equal x2 x1) x2 x1.
Proof.
  unfold fast_path. rewrite (equal_sym x2 x1).
  destruct (equal x1 x2), (requires_grad x1), (requires_grad x2); reflexivity.
Qed.

Lemma tanimotoQ_sym (d : nat) (x1 x2 : Tensor) (i j : nat) :
  (tanimotoQ d x1 i x2 j == tanimotoQ d x2 j x1 i)%Q.
Proof.
  unfold tanimotoQ.
  assert (dotQ d x1 i x2 j == dotQ d x2 j x1 i)%Q as Hc
    by apply sum_prod_comm.
  rewrite Hc.
  assert (dotQ d x1 i x1 i + dotQ d x2 j x2 j - dotQ d x2 j x1 i
          == dotQ d x2 j x2 j + dotQ d x1 i x1 i - dotQ d x2 j x1 i)%Q as Hd
    by ring.
  now rewrite Hd.
Qed.

(** On matrices of finite numbers the similarity is symmetric: the entry
    [i, j] for [(x1, x2)] and the entry [j, i] for [(x2, x1)] are the same
    value. *)
Lemma matrix_symmetry (n m d : nat) (x1 x2 : Tensor) (self : BitDistance)
    (postprocess : bool) :
  real_matrix n d x1 -> real_matrix m d x2 ->
  exists r r',
    _sim self x1 x2 postprocess (equal x1 x2) "tanimoto"
      = Ok (Some (post self postprocess r))
    /\ _sim self x2 x1 postprocess (equal x2 x1) "tanimoto"
       = Ok (Some (post self postprocess r'))
    /\ shape r = [n; m] /\ shape r' = [m; n]
    /\ forall i j, i < n -> j < m -> same (item r [i; j]) (item r' [j; i]).
Proof.
  intros R1 R2.
  destruct (matrix_entries n m d x1 x2 self postprocess R1 R2)
    as (r & Hr & Hs & He).
  destruct (matrix_entries m n d x2 x1 self postprocess R2 R1)
    as (r' & Hr' & Hs' & He').
  exists r, r'. repeat (split; [assumption |]).
  intros i j Hi Hj.
  destruct (He i j Hi Hj) as [Hv Hz]. destruct (He' j i Hj Hi) as [Hv' Hz'].
  destruct (Qeq_dec (dotQ d x1 i x1 i) 0) as [Ha | Ha];
    [destruct (Qeq_dec (dotQ d x2 j x2 j) 0) as [Hb | Hb] |].
  - pose proof (norm_zero_row d x1 i Ha) as Z1.
    pose proof (norm_zero_row d x2 j Hb) as Z2.
    rewrite (Hz Z1 Z2), (Hz' Z2 Z1), <- (fast_path_sym x1 x2),
      (Nat.eqb_sym j i).
    destruct (fast_path (equal x1 x2) x1 x2 && (i =? j));
      [apply Qeq_refl | exact I].
  - assert (~ (zero_row d x1 i /\ zero_row d x2 j)) as Hnz
      by (intros [_ Z]; apply Hb; now apply zero_row_dot_l).
    destruct (Hv Hnz) as (q & -> & Hq).
    destruct (Hv' (fun H => Hnz (conj (proj2 H) (proj1 H))))
      as (q' & -> & Hq').
    cbn. now rewrite Hq, Hq', tanimotoQ_sym.
  - assert (~ (zero_row d x1 i /\ zero_row d x2 j)) as Hnz
      by (intros [Z _]; apply Ha; now apply zero_row_dot_l).
    destruct (Hv Hnz) as (q & -> & Hq).
    destruct (Hv' (fun H => Hnz (conj (proj2 H) (proj1 H))))
      as (q' & -> & Hq').
    cbn. now rewrite Hq, Hq', tanimotoQ_sym.
Qed.

(** ** C5: symmetry on batches *)

(** C5.  The source documents inputs [b x n x d], and on such inputs the
    call is not symmetric: for the batches [ones] and [halves] the entry
    [0, 1, 0] of the similarity of [(ones, halves)] is 4 and the entry
    [0, 0, 1] of the similarity of [(halves, ones)] is 1.  (On matrices the
    symmetry holds, see [matrix_symmetry].) *)
Theorem C5_batched_asymmetry :
  exists r r',
    similarity ones halves = Ok (Some r)
    /\ similarity halves ones = Ok (Some r')
    /\ canon (item r [0; 1; 0]) = Fin 4
    /\ canon (item r' [0; 0; 1]) = Fin 1
    /\ ~ same (item r [0; 1; 0]) (item r' [0; 0; 1]).
Proof.
  eexists. eexists. split; [reflexivity |]. split; [reflexivity |].
  split; [reflexivity |]. split; [reflexivity |].
  vm_compute. discriminate.
Qed.

(** ** C6: the last axis as a batch *)

Lemma relayout_shape (pre : list nat) (n d : nat) (x : Tensor) :
  shape x = pre ++ [n; d] ->
  exists t, relayout true x = Ok t /\ shape t = pre ++ [d; n; 1].
Proof.
  intros Hs. unfold relayout, transpose_last2.
  rewrite Hs, rev_app_distr. cbn. eexists. split; [reflexivity |].
  cbn. rewrite rev_involutive, <- app_assoc. reflexivity.
Qed.

(** C6.  With [last_dim_is_batch] the inputs are transposed on their last
    two axes and given a trailing axis of size 1, so that a [3 x 2] matrix
    becomes a tensor of shape [2 x 3 x 1]; but the similarity of the
    re-laid-out tensors is then not a tensor of shape [2 x 3 x 3]: the sum of
    the norms, of shapes [2 x 3 x 1] and [2 x 3], cannot be broadcast, and the
    call raises. *)
Theorem C6_last_dim_is_batch_raises :
  let x := matrix [[1; 2]; [3; 4]; [5; 6]]%Q in
  (exists t, relayout true x = Ok t /\ shape t = [2; 3; 1])
  /\ snd (covar_dist (fresh "tanimoto") x x true default_postprocess_script
            true)
     = Raise shape_mismatch.
Proof.
  intros x. split; [| reflexivity].
  eexists. split; reflexivity.
Qed.

(** ** C8: the shape of the result *)

(** C8.  For a batched call in which [x2] holds a single point the result
    does not have the shape [b x n x 1]: for [x1] of shape [2 x 3 x 1] and
    [x2] of shape [2 x 1 x 1] the call returns a tensor of shape
    [2 x 3 x 2].  (On matrices the shape is [n x m], see [sim_matrix].) *)
Theorem C8_batched_single_point_shape :
  let x1 := batch [[[1]; [1]; [1]]; [[1]; [1]; [1]]]%Q in
  let x2 := batch [[[1]]; [[1 # 2]]]%Q in
  shape x1 = [2; 3; 1] /\ shape x2 = [2; 1; 1]
  /\ exists r, similarity x1 x2 = Ok (Some r) /\ shape r = [2; 3; 2].
Proof.
  intros x1 x2. split; [reflexivity |]. split; [reflexivity |].
  eexists. split; reflexivity.
Qed.

(** * Further properties of the code *)

(** ** Matrices: what the call returns and when it raises *)

(** X1.  For two matrices with the same number of columns, whatever their
    elements are (not-a-number and infinities included) and however many
    rows they have (none included), the call does not raise: it returns,
    before the optional post-processing, a matrix with one row per row of
    [x1] and one column per row of [x2]. *)
Theorem X1_matrix_call_returns :
  forall n m d x1 x2 self postprocess,
    shape x1 = [n; d] -> shape x2 = [m; d] ->
    exists r,
      _sim self x1 x2 postprocess (equal x1 x2) "tanimoto"
        = Ok (Some (post self postprocess r))
      /\ shape r = [n; m].
Proof.
  intros n m d x1 x2 self pp H1 H2.
  destruct (sim_matrix n m d x1 x2 H1 H2 self pp (equal x1 x2)
              (fast_same_rows n m d x1 x2 H1 H2)) as (r & Hr & Hs & _).
  exists r. auto.
Qed.

Lemma X1_matrix_call_returns_witness :
  exists r,
    _sim {| obj_id := 0; _postprocess := default_postprocess_script |}
         (matrix [[1; 2]]%Q) (matrix [[1; 2]; [3; 4]]%Q) true
         (equal (matrix [[1; 2]]%Q) (matrix [[1; 2]; [3; 4]]%Q)) "tanimoto"
      = Ok (Some (post {| obj_id := 0;
                          _postprocess := default_postprocess_script |}
                       true r))
    /\ shape r = [1; 2].
Proof.
  apply (X1_matrix_call_returns 1 2 2); reflexivity.
Defined.

(** X2.  For two matrices whose numbers of columns differ, the call raises
    the error of the matrix product of line 56, whatever the hint and the
    post-processing are. *)
Theorem X2_feature_mismatch_raises :
  forall n m d1 d2 x1 x2 self postprocess x1_eq_x2,
    shape x1 = [n; d1] -> shape x2 = [m; d2] -> d1 <> d2 ->
    _sim self x1 x2 postprocess x1_eq_x2 "tanimoto" = Raise matmul_mismatch.
Proof.
  intros n m d1 d2 x1 x2 self pp hint H1 H2 Hd.
  open_tensor x1. open_tensor x2.
  unfold _sim. cbn [metric_in supported_metrics existsb].
  change (("tanimoto" =? "tanimoto")%string) with true. cbn [orb negb].
  unfold transpose_last2, matmul. cbn.
  apply Nat.eqb_neq in Hd. now rewrite Hd.
Qed.

Lemma X2_feature_mismatch_raises_witness :
  _sim {| obj_id := 0; _postprocess := default_postprocess_script |}
       (matrix [[1; 1; 0; 0]]%Q) (matrix [[1; 0; 0]]%Q) true false "tanimoto"
  = Raise matmul_mismatch.
Proof.
  apply (X2_feature_mismatch_raises 1 1 4 3); [reflexivity | reflexivity | lia].
Defined.

(** X3.  A second input with fewer than two axes makes the transposition of
    line 56 raise its index error, whatever the first input is. *)
Theorem X3_second_input_needs_two_axes :
  forall x1 x2 self postprocess x1_eq_x2,
    dim x2 < 2 ->
    _sim self x1 x2 postprocess x1_eq_x2 "tanimoto" = Raise dim_out_of_range.
Proof.
  intros x1 x2 self pp hint Hd.
  unfold _sim. cbn [metric_in supported_metrics existsb].
  change (("tanimoto" =? "tanimoto")%string) with true. cbn [orb negb].
  unfold transpose_last2. unfold dim in Hd. rewrite <- length_rev in Hd.
  destruct (rev (shape x2)) as [| b [| a r]]; cbn in Hd; try lia; reflexivity.
Qed.

Lemma X3_second_input_needs_two_axes_witness :
  _sim {| obj_id := 0; _postprocess := default_postprocess_script |}
       (matrix [[1; 0]]%Q) (vector [1; 0]%Q) true false "tanimoto"
  = Raise dim_out_of_range.
Proof.
  apply X3_second_input_needs_two_axes. cbn. lia.
Defined.

(** ** Post-processing *)

Lemma sim_without_postprocess self other x1 x2 x1_eq_x2 mt :
  _sim self x1 x2 false x1_eq_x2 mt = _sim other x1 x2 false x1_eq_x2 mt.
Proof.
  reflexivity.
Qed.

(** X4.  Post-processing is the last step and nothing else depends on it:
    the call with [postprocess] returns the post-processing function of the
    module applied to what the call without [postprocess] returns, and raises
    what that call raises; without [postprocess] the module plays no part. *)
Theorem X4_postprocess_is_applied_last :
  forall self other x1 x2 x1_eq_x2 mt,
    _sim self x1 x2 true x1_eq_x2 mt
    = match _sim self x1 x2 false x1_eq_x2 mt with
      | Ok (Some r) => Ok (Some (call (_postprocess self) r))
      | Ok None => Ok None
      | Raise e => Raise e
      end
    /\ _sim self x1 x2 false x1_eq_x2 mt = _sim other x1 x2 false x1_eq_x2 mt.
Proof.
  intros self other x1 x2 hint mt. unfold _sim.
  destruct (negb (metric_in mt supported_metrics)); [split; reflexivity |].
  destruct (String.eqb mt "tanimoto"); [| split; reflexivity].
  destruct (transpose_last2 x2) as [x2t |]; cbn [bind];
    [| split; reflexivity].
  destruct (matmul x1 x2t) as [c |]; cbn [bind]; [| split; reflexivity].
  match goal with |- context [add ?u ?v] =>
    destruct (add u v) as [s |] end; cbn [bind]; [| split; reflexivity].
  destruct (sub s c) as [dn |]; cbn [bind]; [| split; reflexivity].
  destruct (div c dn) as [q |]; cbn [bind]; [| split; reflexivity].
  destruct (hint && negb (requires_grad x1) && negb (requires_grad x2)).
  - destruct (fill_diagonal_ (Fin 1) q); cbn [bind]; split; reflexivity.
  - cbn [bind]. split; reflexivity.
Qed.

(** ** The cache and the state of the kernel *)

Lemma refresh_module st f :
  distance_module (kernel (fst (refresh st f))) = Some (snd (refresh st f))
  /\ func_ne (_postprocess (snd (refresh st f))) f = false.
Proof.
  unfold refresh, rebuild.
  destruct (distance_module (kernel st)) as [d |] eqn:E;
    [| split; [reflexivity | apply func_ne_refl]].
  destruct (func_ne (_postprocess d) f) eqn:Hne; cbn;
    [split; [reflexivity | apply func_ne_refl] | split; assumption].
Qed.

Lemma relayout_raise ldb x e :
  relayout ldb x = Raise e -> ldb = true /\ dim x < 2 /\ e = dim_out_of_range.
Proof.
  unfold relayout, transpose_last2, dim. rewrite <- length_rev.
  destruct ldb; [| discriminate].
  destruct (rev (shape x)) as [| b [| a r]]; cbn; intros H; inversion H;
    repeat split; lia.
Qed.

(** X5.  The cache is brought up to date before the similarity is computed
    and is not rolled back: after every call that gets past the re-layout,
    whether it returns or raises, the kernel holds a module whose
    post-processing function compares equal ([==]) to the requested one, and
    that module is the one the call used.  A call never changes the metric of the kernel, and
    a call whose re-layout raises (an input with fewer than two axes under
    [last_dim_is_batch]) leaves the whole state as it was. *)
Theorem X5_cache_after_call :
  (forall st x1 x2 ldb f postprocess,
      reaches_cache ldb x1 x2 ->
      exists d a b,
        distance_module
          (kernel (fst (covar_dist st x1 x2 ldb f postprocess))) = Some d
        /\ func_ne (_postprocess d) f = false
        /\ relayout ldb x1 = Ok a /\ relayout ldb x2 = Ok b
        /\ snd (covar_dist st x1 x2 ldb f postprocess)
           = _sim d a b postprocess (equal a b) (metric (kernel st)))
  /\ (forall st x1 x2 ldb f postprocess,
         metric (kernel (fst (covar_dist st x1 x2 ldb f postprocess)))
         = metric (kernel st))
  /\ (forall st x1 x2 ldb f postprocess,
         ~ reaches_cache ldb x1 x2 ->
         covar_dist st x1 x2 ldb f postprocess = (st, Raise dim_out_of_range)).
Proof.
  split; [| split].
  - intros st x1 x2 ldb f pp Hreach.
    destruct (reaches_relayout ldb x1 x2 Hreach) as (a & b & Ha & Hb).
    exists (snd (refresh st f)), a, b.
    rewrite (covar_dist_result st x1 x2 ldb f pp a b Ha Hb). cbn [fst snd].
    destruct (refresh_module st f) as [Hm Hf].
    rewrite refresh_metric. auto.
  - intros. apply covar_dist_metric.
  - intros st x1 x2 ldb f pp Hn. unfold covar_dist.
    destruct (relayout ldb x1) as [a | e] eqn:E1.
    + destruct (relayout ldb x2) as [b | e] eqn:E2.
      * exfalso. apply Hn. intros Hl. subst ldb.
        unfold relayout, transpose_last2, dim in *.
        rewrite <- (length_rev (shape x1)), <- (length_rev (shape x2)).
        destruct (rev (shape x1)) as [| b1 [| a1 r1]]; try discriminate.
        destruct (rev (shape x2)) as [| b2 [| a2 r2]]; try discriminate.
        cbn. lia.
      * apply relayout_raise in E2 as (_ & _ & ->). reflexivity.
    + apply relayout_raise in E1 as (_ & _ & ->). reflexivity.
Qed.

Lemma X5_cache_after_call_witness :
  exists d a b,
    distance_module
      (kernel (fst (covar_dist (fresh "euclidean") (matrix [[1; 0]]%Q)
                      (matrix [[1; 0]]%Q) false other_postprocess true)))
    = Some d
    /\ func_ne (_postprocess d) other_postprocess = false
    /\ relayout false (matrix [[1; 0]]%Q) = Ok a
    /\ relayout false (matrix [[1; 0]]%Q) = Ok b
    /\ snd (covar_dist (fresh "euclidean") (matrix [[1; 0]]%Q)
              (matrix [[1; 0]]%Q) false other_postprocess true)
       = _sim d a b true (equal a b) (metric (kernel (fresh "euclidean"))).
Proof.
  apply (proj1 X5_cache_after_call). intros H. discriminate H.
Defined.

(** ** More on the values for matrices of finite numbers *)

Lemma sum_prod_nonneg (f g : nat -> Q) (l : list nat) :
  (forall k, In k l -> (0 <= f k)%Q) -> (forall k, In k l -> (0 <= g k)%Q) ->
  (0 <= sum_prod f g l)%Q.
Proof.
  induction l as [| k l IH]; intros Hf Hg; cbn; [lra |].
  fold (sum_prod f g l).
  assert (0 <= f k * g k)%Q
    by (apply Qmult_le_0_compat; [apply Hf | apply Hg]; now left).
  assert (0 <= sum_prod f g l)%Q
    by (apply IH; intros; [apply Hf | apply Hg]; now right).
  lra.
Qed.

Lemma sum_diff_squares (f g : nat -> Q) (l : list nat) :
  (sum_prod (fun k => f k - g k) (fun k => f k - g k) l
   == sum_prod f f l + sum_prod g g l - 2 * sum_prod f g l)%Q.
Proof.
  induction l as [| k l IH]; cbn; [ring |].
  fold (sum_prod (fun k => (f k - g k)%Q) (fun k => (f k - g k)%Q) l).
  fold (sum_prod f f l) (sum_prod g g l) (sum_prod f g l).
  rewrite IH. ring.
Qed.

Lemma seq_lt (d k : nat) : In k (seq 0 d) <-> k < d.
Proof.
  rewrite in_seq. lia.
Qed.

Lemma same_refl (a : scalar) : same a a.
Proof.
  destruct a; cbn; [apply Qeq_refl | exact I | exact I | exact I].
Qed.

Lemma fdiv_same (x y y' : Q) :
  (y == y')%Q -> same (fdiv (Fin x) (Fin y)) (fdiv (Fin x) (Fin y')).
Proof.
  intros Hy. cbn.
  assert (Qeq_bool y 0 = Qeq_bool y' 0) as ->.
  { destruct (Qeq_bool y 0) eqn:E1, (Qeq_bool y' 0) eqn:E2; try reflexivity.
    - apply Qeq_bool_eq in E1. rewrite Hy in E1.
      apply Qeq_eq_bool in E1. congruence.
    - apply Qeq_bool_eq in E2. rewrite <- Hy in E2.
      apply Qeq_eq_bool in E2. congruence. }
  destruct (Qeq_bool y' 0); [apply same_refl |].
  cbn. now rewrite Hy.
Qed.

Lemma fclamp_same (a b : scalar) :
  same a b -> same (fclamp_min 0 a) (fclamp_min 0 b).
Proof.
  destruct a as [x | | |], b as [y | | |]; cbn; try contradiction;
    try (intros _; exact I); try (intros _; apply Qeq_refl).
  intros Hxy. now rewrite !clamp_max, Hxy.
Qed.

(** The quotient and the entry for a pair of rows that are not both zero. *)
Lemma entry_of_pair (n m d : nat) (x1 x2 : Tensor) (self : BitDistance)
    (postprocess : bool) (i j : nat) :
  real_matrix n d x1 -> real_matrix m d x2 -> i < n -> j < m ->
  ~ (zero_row d x1 i /\ zero_row d x2 j) ->
  exists r q,
    _sim self x1 x2 postprocess (equal x1 x2) "tanimoto"
      = Ok (Some (post self postprocess r))
    /\ shape r = [n; m]
    /\ item r [i; j] = Fin q
    /\ (q == Qmax 0 (tanimotoQ d x1 i x2 j))%Q
    /\ (0 < dotQ d x1 i x1 i + dotQ d x2 j x2 j - dotQ d x1 i x2 j)%Q.
Proof.
  intros R1 R2 Hi Hj Hnz.
  destruct (matrix_entries n m d x1 x2 self postprocess R1 R2)
    as (r & Hr & Hs & He).
  destruct (proj1 (He i j Hi Hj) Hnz) as (q & Hq & Hv).
  exists r, q. repeat (split; [assumption |]).
  now apply denominator_pos.
Qed.

(** X6.  For rows without negative numbers, as the rows of bit and count
    vectors are, the lower clamp changes nothing: the entry is the Tanimoto
    coefficient [<x, y> / (||x||^2 + ||y||^2 - <x, y>)] itself. *)
Theorem X6_nonnegative_rows_unclamped :
  forall n m d x1 x2 self postprocess i j,
    real_matrix n d x1 -> real_matrix m d x2 -> i < n -> j < m ->
    nonneg_row d x1 i -> nonneg_row d x2 j ->
    ~ (zero_row d x1 i /\ zero_row d x2 j) ->
    exists r q,
      _sim self x1 x2 postprocess (equal x1 x2) "tanimoto"
        = Ok (Some (post self postprocess r))
      /\ item r [i; j] = Fin q
      /\ (q == tanimotoQ d x1 i x2 j)%Q.
Proof.
  intros n m d x1 x2 self pp i j R1 R2 Hi Hj N1 N2 Hnz.
  destruct (entry_of_pair n m d x1 x2 self pp i j R1 R2 Hi Hj Hnz)
    as (r & q & Hr & _ & Hq & Hv & Hd).
  exists r, q. split; [exact Hr |]. split; [exact Hq |].
  rewrite Hv. apply Q.max_r. unfold tanimotoQ.
  apply Qle_shift_div_l; [exact Hd |]. rewrite Qmult_0_l.
  apply sum_prod_nonneg; intros k Hk; apply seq_lt in Hk; auto.
Qed.

Lemma X6_nonnegative_rows_unclamped_witness :
  exists r q,
    _sim {| obj_id := 0; _postprocess := default_postprocess_script |}
         (matrix [[2; 1; 0]]%Q) (matrix [[1; 0; 3]]%Q) true
         (equal (matrix [[2; 1; 0]]%Q) (matrix [[1; 0; 3]]%Q)) "tanimoto"
      = Ok (Some (post {| obj_id := 0;
                          _postprocess := default_postprocess_script |}
                       true r))
    /\ item r [0; 0] = Fin q
    /\ (q == tanimotoQ 3 (matrix [[2; 1; 0]]%Q) 0 (matrix [[1; 0; 3]]%Q) 0)%Q.
Proof.
  apply (X6_nonnegative_rows_unclamped 1 1 3).
  - apply (real_matrix_literal [[2; 1; 0]]%Q).
  - apply (real_matrix_literal [[1; 0; 3]]%Q).
  - lia.
  - lia.
  - intros k Hk. destruct k as [| [| [| k]]]; vm_compute; try discriminate.
    lia.
  - intros k Hk. destruct k as [| [| [| k]]]; vm_compute; try discriminate.
    lia.
  - intros [H _]. specialize (H 0 ltac:(lia)). vm_compute in H. discriminate H.
Defined.

(** X7.  For a pair of rows that are not both zero, the entry is 1 exactly
    when the two rows hold the same numbers. *)
Theorem X7_one_iff_equal_rows :
  forall n m d x1 x2 self postprocess i j,
    real_matrix n d x1 -> real_matrix m d x2 -> i < n -> j < m ->
    ~ (zero_row d x1 i /\ zero_row d x2 j) ->
    exists r q,
      _sim self x1 x2 postprocess (equal x1 x2) "tanimoto"
        = Ok (Some (post self postprocess r))
      /\ item r [i; j] = Fin q
      /\ ((q == 1)%Q <-> forall k, k < d -> (entry x1 i k == entry x2 j k)%Q).
Proof.
  intros n m d x1 x2 self pp i j R1 R2 Hi Hj Hnz.
  destruct (entry_of_pair n m d x1 x2 self pp i j R1 R2 Hi Hj Hnz)
    as (r & q & Hr & _ & Hq & Hv & Hd).
  exists r, q. split; [exact Hr |]. split; [exact Hq |].
  pose proof (sum_diff_squares (entry x1 i) (entry x2 j) (seq 0 d)) as Hsq.
  fold (dotQ d x1 i x1 i) (dotQ d x2 j x2 j) (dotQ d x1 i x2 j) in Hsq.
  set (a := dotQ d x1 i x1 i) in *. set (b := dotQ d x2 j x2 j) in *.
  set (c := dotQ d x1 i x2 j) in *.
  assert ((tanimotoQ d x1 i x2 j == 1)%Q <-> (2 * c == a + b)%Q) as Ht.
  { unfold tanimotoQ. fold a b c. split; intros H.
    - assert (c == 1 * (a + b - c))%Q as Hc
        by (rewrite <- H; field; lra).
      lra.
    - assert (c == a + b - c)%Q as Hc by lra.
      rewrite <- Hc. field. lra. }
  rewrite Hv. split.
  - intros H1 k Hk.
    assert (tanimotoQ d x1 i x2 j == 1)%Q as Ht1.
    { destruct (Q.max_spec 0 (tanimotoQ d x1 i x2 j)) as [[_ E] | [_ E]];
        rewrite E in H1; [exact H1 | lra]. }
    apply Ht in Ht1.
    assert (entry x1 i k - entry x2 j k == 0)%Q as Hz.
    { apply (sum_squares_zero_inv
               (fun k => (entry x1 i k - entry x2 j k)%Q) (seq 0 d));
        [lra | now apply seq_lt]. }
    lra.
  - intros Heq.
    assert (tanimotoQ d x1 i x2 j == 1)%Q as Ht1.
    { apply Ht.
      assert (sum_prod (fun k => entry x1 i k - entry x2 j k)
                (fun k => entry x1 i k - entry x2 j k) (seq 0 d) == 0)%Q as Hz.
      { apply sum_squares_zero. intros k Hk. apply seq_lt in Hk.
        rewrite (Heq k Hk). ring. }
      lra. }
    rewrite Ht1. now rewrite Q.max_r.
Qed.

Lemma X7_one_iff_equal_rows_witness :
  exists r q,
    _sim {| obj_id := 0; _postprocess := default_postprocess_script |}
         (matrix [[2; 1; 0]]%Q) (matrix [[1; 0; 3]; [2; 1; 0]]%Q) true
         (equal (matrix [[2; 1; 0]]%Q) (matrix [[1; 0; 3]; [2; 1; 0]]%Q))
         "tanimoto"
      = Ok (Some (post {| obj_id := 0;
                          _postprocess := default_postprocess_script |}
                       true r))
    /\ item r [0; 1] = Fin q
    /\ ((q == 1)%Q
        <-> forall k, k < 3 ->
              (entry (matrix [[2; 1; 0]]%Q) 0 k
               == entry (matrix [[1; 0; 3]; [2; 1; 0]]%Q) 1 k)%Q).
Proof.
  apply (X7_one_iff_equal_rows 1 2 3).
  - apply (real_matrix_literal [[2; 1; 0]]%Q).
  - apply (real_matrix_literal [[1; 0; 3]; [2; 1; 0]]%Q).
  - lia.
  - lia.
  - intros [H _]. specialize (H 0 ltac:(lia)). vm_compute in H. discriminate H.
Defined.

(** X8.  In exact arithmetic, for a pair of rows that are not both zero,
    the entry is 0 exactly when the dot product of the two rows is not
    positive; in particular it is 0 for bit rows without a common set
    column. *)
Theorem X8_zero_iff_no_overlap :
  forall n m d x1 x2 self postprocess i j,
    real_matrix n d x1 -> real_matrix m d x2 -> i < n -> j < m ->
    ~ (zero_row d x1 i /\ zero_row d x2 j) ->
    exists r q,
      _sim self x1 x2 postprocess (equal x1 x2) "tanimoto"
        = Ok (Some (post self postprocess r))
      /\ item r [i; j] = Fin q
      /\ ((q == 0)%Q <-> (dotQ d x1 i x2 j <= 0)%Q).
Proof.
  intros n m d x1 x2 self pp i j R1 R2 Hi Hj Hnz.
  destruct (entry_of_pair n m d x1 x2 self pp i j R1 R2 Hi Hj Hnz)
    as (r & q & Hr & _ & Hq & Hv & Hd).
  exists r, q. split; [exact Hr |]. split; [exact Hq |].
  set (c := dotQ d x1 i x2 j) in *.
  set (den := (dotQ d x1 i x1 i + dotQ d x2 j x2 j - c)%Q) in *.
  assert ((tanimotoQ d x1 i x2 j <= 0)%Q <-> (c <= 0)%Q) as Ht.
  { unfold tanimotoQ. fold c den. split; intros H.
    - destruct (Qlt_le_dec 0 c) as [Hc | Hc]; [| exact Hc].
      exfalso. assert (0 < c / den)%Q; [| lra].
      apply Qlt_shift_div_l; [exact Hd | lra].
    - apply Qle_shift_div_r; [exact Hd | lra]. }
  rewrite Hv. split.
  - intros H0. apply Ht.
    destruct (Q.max_spec 0 (tanimotoQ d x1 i x2 j)) as [[Hlt E] | [Hle E]];
      rewrite E in H0; lra.
  - intros Hc. apply Ht in Hc. now apply Q.max_l.
Qed.

Lemma X8_zero_iff_no_overlap_witness :
  exists r q,
    _sim {| obj_id := 0; _postprocess := default_postprocess_script |}
         (matrix [[1; 1; 0; 0]]%Q) (matrix [[0; 0; 1; 1]]%Q) true
         (equal (matrix [[1; 1; 0; 0]]%Q) (matrix [[0; 0; 1; 1]]%Q))
         "tanimoto"
      = Ok (Some (post {| obj_id := 0;
                          _postprocess := default_postprocess_script |}
                       true r))
    /\ item r [0; 0] = Fin q
    /\ ((q == 0)%Q
        <-> (dotQ 4 (matrix [[1; 1; 0; 0]]%Q) 0 (matrix [[0; 0; 1; 1]]%Q) 0
             <= 0)%Q).
Proof.
  apply (X8_zero_iff_no_overlap 1 1 4).
  - apply (real_matrix_literal [[1; 1; 0; 0]]%Q).
  - apply (real_matrix_literal [[0; 0; 1; 1]]%Q).
  - lia.
  - lia.
  - intros [H _]. specialize (H 0 ltac:(lia)). vm_compute in H. discriminate H.
Defined.

(** *** Bit vectors: the Jaccard index *)







(** ** The path for identical inputs *)

Lemma zero_row_equal (n d : nat) (x1 x2 : Tensor) (i : nat) :
  equal x1 x2 = true -> shape x1 = [n; d] -> i < n ->
  zero_row d x1 i -> zero_row d x2 i.
Proof.
  intros He Hs Hi Hz k Hk.
  rewrite <- (equal_entry x1 x2 n d i k He Hs Hi Hk). now apply Hz.
Qed.

(** X10.  In exact arithmetic, on identical matrices of finite numbers,
    the call returns the same values with the hint and without it, except
    on the diagonal entry of an all-zero row, which is not-a-number without
    the hint and is overwritten with 1 with it (when no input tracks
    gradients; otherwise the hint has no effect at all). *)
Theorem X10_hint_changes_zero_diagonal_only :
  forall n d x1 x2 self postprocess,
    real_matrix n d x1 -> real_matrix n d x2 -> equal x1 x2 = true ->
    exists r r',
      _sim self x1 x2 postprocess true "tanimoto"
        = Ok (Some (post self postprocess r))
      /\ _sim self x1 x2 postprocess false "tanimoto"
         = Ok (Some (post self postprocess r'))
      /\ forall i j, i < n -> j < n ->
           (~ (i = j /\ zero_row d x1 i) -> same (item r [i; j]) (item r' [i; j]))
           /\ (i = j -> zero_row d x1 i ->
               item r' [i; j] = NaN
               /\ item r [i; j]
                  = if fast_path true x1 x2 then Fin 1 else NaN).
Proof.
  intros n d x1 x2 self pp R1 R2 He.
  pose proof R1 as [Hs1 _]. pose proof R2 as [Hs2 _].
  destruct (sim_matrix n n d x1 x2 Hs1 Hs2 self pp true (fun _ => eq_refl))
    as (r & Hr & _ & Hri).
  destruct (sim_matrix n n d x1 x2 Hs1 Hs2 self pp false (fun _ => eq_refl))
    as (r' & Hr' & _ & Hri').
  exists r, r'. split; [exact Hr |]. split; [exact Hr' |].
  intros i j Hi Hj. rewrite (Hri i j Hi Hj), (Hri' i j Hi Hj).
  clear Hri Hri' Hr Hr'.
  change (fast_path false x1 x2) with false. cbn [andb].
  rewrite !(quotient_real n n d x1 x2 _ i j R1 R2 (fun _ => eq_refl) Hi Hj).
  set (F := fast_path true x1 x2).
  destruct (dotQ_equal n d x1 x2 i j He Hs1 Hi Hj) as [_ Hb].
  set (a := dotQ d x1 i x1 i) in *. set (b := dotQ d x2 j x2 j) in *.
  set (c := dotQ d x1 i x2 j) in *. set (b1 := dotQ d x1 j x1 j) in *.
  assert ((a + (if F then b1 else b) - c == a + b - c)%Q) as Hden
    by (destruct F; [rewrite Hb |]; reflexivity).
  split.
  - intros Hnz. destruct (F && (i =? j)) eqn:Hdiag.
    + apply andb_prop in Hdiag as [_ Hij]. apply Nat.eqb_eq in Hij. subst j.
      assert (~ zero_row d x1 i) as Hnz1 by tauto.
      destruct (dotQ_equal n d x1 x2 i i He Hs1 Hi Hi) as [Hc _].
      fold a c in Hc.
      pose proof (sum_squares_nonneg (entry x1 i) (seq 0 d)) as Ha.
      fold (dotQ d x1 i x1 i) in Ha. fold a in Ha.
      assert (0 < a)%Q as Hpos.
      { destruct (Qlt_le_dec 0 a) as [H | H]; [exact H |].
        exfalso. apply Hnz1. apply norm_zero_row. fold a. lra. }
      unfold b1 in Hb. fold a in Hb.
      rewrite fdiv_pos by lra. cbn.
      rewrite clamp_max.
      assert (c / (a + b - c) == 1)%Q as -> by (rewrite <- Hc, <- Hb; field; lra).
      now rewrite Q.max_r.
    + apply fclamp_same, fdiv_same. exact Hden.
  - intros <- Hz. pose proof (zero_row_equal n d x1 x2 i He Hs1 Hi Hz) as Hz2.
    assert (c == 0)%Q as Hc0 by (now apply zero_row_dot_l).
    assert (a == 0)%Q as Ha0 by (now apply zero_row_dot_l).
    assert (b == 0)%Q as Hb0 by (now apply zero_row_dot_l).
    rewrite Nat.eqb_refl, andb_true_r. split.
    + rewrite fdiv_zero_zero; [reflexivity | exact Hc0 | lra].
    + destruct F; [reflexivity |].
      rewrite fdiv_zero_zero; [reflexivity | exact Hc0 | lra].
Qed.

Lemma X10_hint_changes_zero_diagonal_only_witness :
  exists r r',
    _sim {| obj_id := 0; _postprocess := default_postprocess_script |}
         (matrix [[1; 0]; [0; 0]]%Q) (matrix [[1; 0]; [0; 0]]%Q) true true
         "tanimoto"
      = Ok (Some (post {| obj_id := 0;
                          _postprocess := default_postprocess_script |}
                       true r))
    /\ _sim {| obj_id := 0; _postprocess := default_postprocess_script |}
            (matrix [[1; 0]; [0; 0]]%Q) (matrix [[1; 0]; [0; 0]]%Q) true false
            "tanimoto"
       = Ok (Some (post {| obj_id := 0;
                           _postprocess := default_postprocess_script |}
                        true r'))
    /\ forall i j, i < 2 -> j < 2 ->
         (~ (i = j /\ zero_row 2 (matrix [[1; 0]; [0; 0]]%Q) i) ->
          same (item r [i; j]) (item r' [i; j]))
         /\ (i = j -> zero_row 2 (matrix [[1; 0]; [0; 0]]%Q) i ->
             item r' [i; j] = NaN
             /\ item r [i; j]
                = if fast_path true (matrix [[1; 0]; [0; 0]]%Q)
                                    (matrix [[1; 0]; [0; 0]]%Q)
                  then Fin 1 else NaN).
Proof.
  apply (X10_hint_changes_zero_diagonal_only 2 2).
  - apply (real_matrix_literal [[1; 0]; [0; 0]]%Q).
  - apply (real_matrix_literal [[1; 0]; [0; 0]]%Q).
  - reflexivity.
Defined.

(** ** Symmetry of a call with the default options *)

Lemma similarity_sim (x1 x2 : Tensor) :
  similarity x1 x2
  = _sim {| obj_id := 0; _postprocess := default_postprocess_script |}
         x1 x2 true (equal x1 x2) "tanimoto".
Proof.
  reflexivity.
Qed.

(** X11.  On matrices of finite numbers the similarity is symmetric: the
    entry [i, j] of the matrix returned for [(x1, x2)] and the entry [j, i]
    of the matrix returned for [(x2, x1)] are the same value (the same
    number, or not-a-number in both). *)
Theorem X11_matrix_similarity_symmetric :
  forall n m d x1 x2,
    real_matrix n d x1 -> real_matrix m d x2 ->
    exists r r',
      similarity x1 x2 = Ok (Some r)
      /\ similarity x2 x1 = Ok (Some r')
      /\ shape r = [n; m] /\ shape r' = [m; n]
      /\ forall i j, i < n -> j < m -> same (item r [i; j]) (item r' [j; i]).
Proof.
  intros n m d x1 x2 R1 R2. rewrite !similarity_sim.
  destruct (matrix_symmetry n m d x1 x2
              {| obj_id := 0; _postprocess := default_postprocess_script |}
              true R1 R2) as (r & r' & Hr & Hr' & Hs & Hs' & Hsym).
  exists r, r'. auto.
Qed.

Lemma X11_matrix_similarity_symmetric_witness :
  exists r r',
    similarity (matrix [[1; 1; 0]; [0; 0; 0]]%Q) (matrix [[1; 0; 2]]%Q)
      = Ok (Some r)
    /\ similarity (matrix [[1; 0; 2]]%Q) (matrix [[1; 1; 0]; [0; 0; 0]]%Q)
       = Ok (Some r')
    /\ shape r = [2; 1] /\ shape r' = [1; 2]
    /\ forall i j, i < 2 -> j < 1 -> same (item r [i; j]) (item r' [j; i]).
Proof.
  apply (X11_matrix_similarity_symmetric 2 1 3).
  - apply (real_matrix_literal [[1; 1; 0]; [0; 0; 0]]%Q).
  - apply (real_matrix_literal [[1; 0; 2]]%Q).
Defined.

(** ** Batches: inputs [b x n x d] and [b x m x d] *)

Lemma eqb_false_of (a b : nat) : a <> b -> (a =? b) = false.
Proof. apply Nat.eqb_neq. Qed.

Lemma add_batch_norms_fails (u v : Tensor) (b n k : nat) :
  shape u = [b; n; 1] -> shape v = [b; k] ->
  2 <= b -> 2 <= n -> n <> b ->
  add u v = Raise shape_mismatch.
Proof.
  intros Hu Hv Hb Hn Hnb. unfold add, pointwise, broadcast_shapes.
  rewrite Hu, Hv. cbn.
  rewrite (eqb_false_of n b), (eqb_false_of n 1), (eqb_false_of b 1) by lia.
  reflexivity.
Qed.

(** The sum of the norms of line 59 cannot be formed when the number of
    points of [x1] is neither 1 nor the number of batches. *)
Lemma batch_broadcast_fails (b n m d : nat) (x1 x2 : Tensor)
    (self : BitDistance) (postprocess x1_eq_x2 : bool) :
  shape x1 = [b; n; d] -> shape x2 = [b; m; d] ->
  2 <= b -> 2 <= n -> n <> b ->
  fast_path x1_eq_x2 x1 x2 = true \/ 2 <= m ->
  _sim self x1 x2 postprocess x1_eq_x2 "tanimoto" = Raise shape_mismatch.
Proof.
  intros H1 H2 Hb Hn Hnb Hm. open_tensor x1. open_tensor x2.
  unfold _sim. cbn [metric_in supported_metrics existsb].
  change (("tanimoto" =? "tanimoto")%string) with true. cbn [orb negb].
  unfold fast_path in Hm. cbn [requires_grad] in *.
  unfold transpose_last2, matmul. cbn. rewrite !Nat.eqb_refl. cbn.
  destruct (x1_eq_x2 && negb g && negb g0) eqn:F.
  - unfold squeeze_last. cbn.
    erewrite add_batch_norms_fails; [reflexivity | reflexivity | reflexivity
                                     | lia | lia | lia].
  - destruct Hm as [Hm | Hm]; [discriminate |].
    unfold squeeze_last. cbn. rewrite (eqb_false_of m 1) by lia.
    erewrite add_batch_norms_fails; [reflexivity | reflexivity | reflexivity
                                     | lia | lia | lia].
Qed.

(** X12.  The source documents inputs [b x n x d] and [b x m x d], but for
    two or more batches the call raises as soon as [x1] holds two or more
    points per batch and their number is not the number of batches: the
    norms of [x2], of shape [b x m], are added to those of [x1], of shape
    [b x n x 1], without being laid out as [b x 1 x m]. *)
Theorem X12_batched_call_raises :
  forall st b n m d x1 x2 f postprocess,
    metric (kernel st) = "tanimoto"%string ->
    shape x1 = [b; n; d] -> shape x2 = [b; m; d] ->
    2 <= b -> 2 <= n -> 2 <= m -> n <> b ->
    snd (covar_dist st x1 x2 false f postprocess) = Raise shape_mismatch.
Proof.
  intros st b n m d x1 x2 f pp Hmt H1 H2 Hb Hn Hm Hnb.
  rewrite (covar_dist_sim st x1 x2 f pp Hmt).
  apply (batch_broadcast_fails b n m d); auto.
Qed.

Lemma X12_batched_call_raises_witness :
  snd (covar_dist (fresh "tanimoto")
         (batch [[[1; 0]; [0; 1]; [1; 1]]; [[1; 0]; [0; 1]; [1; 1]]]%Q)
         (batch [[[1; 0]; [0; 1]]; [[1; 1]; [0; 1]]]%Q)
         false default_postprocess_script true)
  = Raise shape_mismatch.
Proof.
  apply (X12_batched_call_raises (fresh "tanimoto") 2 3 2 2);
    try reflexivity; lia.
Defined.

(** X13.  With [last_dim_is_batch], two matrices with two or more rows each
    and two or more columns make the call raise whenever the number of rows
    of [x1] differs from the number of columns: the re-laid-out inputs are
    batches of shape [d x n x 1] and [d x m x 1]. *)
Theorem X13_last_dim_is_batch_raises :
  forall st n m d x1 x2 f postprocess,
    metric (kernel st) = "tanimoto"%string ->
    shape x1 = [n; d] -> shape x2 = [m; d] ->
    2 <= d -> 2 <= n -> 2 <= m -> n <> d ->
    snd (covar_dist st x1 x2 true f postprocess) = Raise shape_mismatch.
Proof.
  intros st n m d x1 x2 f pp Hmt H1 H2 Hd Hn Hm Hnd.
  destruct (relayout_shape [] n d x1 H1) as (a & Ha & Has).
  destruct (relayout_shape [] m d x2 H2) as (b & Hb & Hbs).
  rewrite (covar_dist_result st x1 x2 true f pp a b Ha Hb). cbn [snd].
  rewrite refresh_metric, Hmt.
  apply (batch_broadcast_fails d n m 1); auto.
Qed.

Lemma X13_last_dim_is_batch_raises_witness :
  snd (covar_dist (fresh "tanimoto")
         (matrix [[1; 0]; [0; 1]; [1; 1]]%Q) (matrix [[1; 1]; [0; 1]]%Q)
         true default_postprocess_script true)
  = Raise shape_mismatch.
Proof.
  apply (X13_last_dim_is_batch_raises (fresh "tanimoto") 3 2 2);
    try reflexivity; lia.
Defined.

(** X14.  In a batched call in which [x2] holds one point per batch and
    [x1] two or more, the call returns, but not a tensor of shape
    [b x n x 1]: [squeeze(-1)] removes the axis of the single point from the
    norms of [x2], and the result has the shape [b x n x b]. *)
Theorem X14_batched_single_point :
  forall b n d x1 x2 self postprocess,
    shape x1 = [b; n; d] -> shape x2 = [b; 1; d] -> 2 <= n ->
    exists r,
      _sim self x1 x2 postprocess (equal x1 x2) "tanimoto"
        = Ok (Some (post self postprocess r))
      /\ shape r = [b; n; b].
Proof.
  intros b n d x1 x2 self pp H1 H2 Hn.
  assert (equal x1 x2 = false) as ->.
  { unfold equal. rewrite H1, H2. cbn.
    rewrite (eqb_false_of n 1) by lia. now rewrite andb_false_r. }
  open_tensor x1. open_tensor x2.
  unfold _sim. cbn [metric_in supported_metrics existsb].
  change (("tanimoto" =? "tanimoto")%string) with true. cbn [orb negb andb].
  unfold transpose_last2, matmul. cbn. rewrite !Nat.eqb_refl. cbn.
  unfold squeeze_last, add, sub, div, pointwise, broadcast_shapes. cbn.
  destruct b as [| [| b']]; cbn;
    repeat (progress (rewrite ?Nat.eqb_refl; cbn));
    eexists; (split; [reflexivity |]); reflexivity.
Qed.

Lemma X14_batched_single_point_witness :
  exists r,
    _sim {| obj_id := 0; _postprocess := default_postprocess_script |}
         (batch [[[1; 0]; [0; 1]; [1; 1]]; [[1; 0]; [0; 1]; [1; 1]]]%Q)
         (batch [[[1; 0]]; [[1; 1]]]%Q) true
         (equal
            (batch [[[1; 0]; [0; 1]; [1; 1]]; [[1; 0]; [0; 1]; [1; 1]]]%Q)
            (batch [[[1; 0]]; [[1; 1]]]%Q))
         "tanimoto"
      = Ok (Some (post {| obj_id := 0;
                          _postprocess := default_postprocess_script |}
                       true r))
    /\ shape r = [2; 3; 2].
Proof.
  apply (X14_batched_single_point 2 3 2); try reflexivity. lia.
Defined.

(** ** What the call never returns, and what does not affect it *)

Lemma fclamp_nonneg (a : scalar) :
  match fclamp_min 0 a with
  | Fin q => (0 <= q)%Q
  | PInf => True
  | NInf => False
  | NaN => True
  end.
Proof.
  destruct a as [x | | |]; cbn; try exact I; [| lra].
  destruct (Qle_bool 0 x) eqn:E; [now apply Qle_bool_iff | lra].
Qed.

(** X15.  Whatever the elements of two matrices are, negative numbers,
    infinities and not-a-number included, no entry of the matrix that the
    call returns (before the optional post-processing) is a negative number
    or minus infinity. *)
Theorem X15_no_negative_entry :
  forall n m d x1 x2 self postprocess,
    shape x1 = [n; d] -> shape x2 = [m; d] ->
    exists r,
      _sim self x1 x2 postprocess (equal x1 x2) "tanimoto"
        = Ok (Some (post self postprocess r))
      /\ forall i j, i < n -> j < m ->
           match item r [i; j] with
           | Fin q => (0 <= q)%Q
           | PInf => True
           | NInf => False
           | NaN => True
           end.
Proof.
  intros n m d x1 x2 self pp H1 H2.
  destruct (sim_matrix n m d x1 x2 H1 H2 self pp (equal x1 x2)
              (fast_same_rows n m d x1 x2 H1 H2)) as (r & Hr & _ & Hri).
  exists r. split; [exact Hr |].
  intros i j Hi Hj. rewrite (Hri i j Hi Hj). apply fclamp_nonneg.
Qed.

Lemma X15_no_negative_entry_witness :
  exists r,
    _sim {| obj_id := 0; _postprocess := default_postprocess_script |}
         (matrix [[1; -2]]%Q) (matrix [[-1; 3]; [2; 2]]%Q) true
         (equal (matrix [[1; -2]]%Q) (matrix [[-1; 3]; [2; 2]]%Q)) "tanimoto"
      = Ok (Some (post {| obj_id := 0;
                          _postprocess := default_postprocess_script |}
                       true r))
    /\ forall i j, i < 1 -> j < 2 ->
         match item r [i; j] with
         | Fin q => (0 <= q)%Q
         | PInf => True
         | NInf => False
         | NaN => True
         end.
Proof.
  apply (X15_no_negative_entry 1 2 2); reflexivity.
Defined.

(** X16.  When one of the inputs tracks gradients the hint has no effect:
    the norms of [x2] are computed from [x2] and the diagonal is not
    overwritten, whatever the shapes are. *)
Theorem X16_gradients_disable_hint :
  forall self x1 x2 postprocess mt,
    requires_grad x1 = true \/ requires_grad x2 = true ->
    _sim self x1 x2 postprocess true mt = _sim self x1 x2 postprocess false mt.
Proof.
  intros self x1 x2 pp mt Hg. unfold _sim.
  assert (true && negb (requires_grad x1) && negb (requires_grad x2) = false)
    as ->.
  { destruct Hg as [-> | ->]; [reflexivity |].
    now destruct (requires_grad x1). }
  reflexivity.
Qed.

Lemma X16_gradients_disable_hint_witness :
  _sim {| obj_id := 0; _postprocess := default_postprocess_script |}
       (requires_grad_ (matrix [[0; 0]]%Q)) (matrix [[0; 0]]%Q) true true
       "tanimoto"
  = _sim {| obj_id := 0; _postprocess := default_postprocess_script |}
         (requires_grad_ (matrix [[0; 0]]%Q)) (matrix [[0; 0]]%Q) true false
         "tanimoto".
Proof.
  apply X16_gradients_disable_hint. left. reflexivity.
Defined.

(** X17.  The cache has no part in what is computed: two kernels with the
    same metric, whatever their caches hold and whatever post-processing
    functions are requested, give the same outcome on the same inputs when
    [postprocess] is off. *)
Theorem X17_cache_does_not_affect_result :
  forall st st' x1 x2 ldb f f',
    metric (kernel st) = metric (kernel st') ->
    snd (covar_dist st x1 x2 ldb f false)
    = snd (covar_dist st' x1 x2 ldb f' false).
Proof.
  intros st st' x1 x2 ldb f f' Hm. unfold covar_dist.
  destruct (relayout ldb x1) as [a |]; [| reflexivity].
  destruct (relayout ldb x2) as [b |]; [| reflexivity].
  pose proof (refresh_metric st f) as M1.
  pose proof (refresh_metric st' f') as M2.
  destruct (refresh st f) as [s1 d1]. destruct (refresh st' f') as [s2 d2].
  cbn [fst snd] in *. rewrite M1, M2, Hm.
  apply sim_without_postprocess.
Qed.

Lemma X17_cache_does_not_affect_result_witness :
  snd (covar_dist (fresh "tanimoto") (matrix [[1; 1; 0]]%Q)
         (matrix [[1; 0; 0]]%Q) false default_postprocess_script false)
  = snd (covar_dist
           (fst (covar_dist (fresh "tanimoto") (matrix [[1; 1; 0]]%Q)
                   (matrix [[1; 0; 0]]%Q) false other_postprocess true))
           (matrix [[1; 1; 0]]%Q) (matrix [[1; 0; 0]]%Q) false
           other_postprocess false).
Proof.
  apply X17_cache_does_not_affect_result. reflexivity.
Defined.

(** ** A single point as the first input *)

(** X18.  A first input with a single axis, one point of [d] features, is
    accepted against a matrix [m x d]: the matrix product treats it as a row,
    and the call returns a tensor with one axis of size [m]. *)
Theorem X18_single_point_query :
  forall m d x1 x2 self postprocess,
    shape x1 = [d] -> shape x2 = [m; d] ->
    exists r,
      _sim self x1 x2 postprocess (equal x1 x2) "tanimoto"
        = Ok (Some (post self postprocess r))
      /\ shape r = [m].
Proof.
  intros m d x1 x2 self pp H1 H2.
  assert (equal x1 x2 = false) as ->
    by (unfold equal; rewrite H1, H2; cbn; now rewrite andb_false_r).
  open_tensor x1. open_tensor x2.
  unfold _sim. cbn [metric_in supported_metrics existsb].
  change (("tanimoto" =? "tanimoto")%string) with true. cbn [orb negb andb].
  unfold transpose_last2, matmul. cbn. rewrite !Nat.eqb_refl. cbn.
  unfold squeeze_last, add, sub, div, pointwise, broadcast_shapes. cbn.
  destruct m as [| [| m']]; cbn;
    repeat (progress (rewrite ?Nat.eqb_refl; cbn));
    eexists; (split; [reflexivity |]); reflexivity.
Qed.

Lemma X18_single_point_query_witness :
  exists r,
    _sim {| obj_id := 0; _postprocess := default_postprocess_script |}
         (vector [1; 1; 0]%Q) (matrix [[1; 0; 0]; [0; 1; 1]]%Q) true
         (equal (vector [1; 1; 0]%Q) (matrix [[1; 0; 0]; [0; 1; 1]]%Q))
         "tanimoto"
      = Ok (Some (post {| obj_id := 0;
                          _postprocess := default_postprocess_script |}
                       true r))
    /\ shape r = [2].
Proof.
  apply (X18_single_point_query 2 3); reflexivity.
Defined.
